(** * nativescript-tasks: the Task engine of [plugin/index.ts]

    A shallow embedding of the task module (class [Task], [newTask],
    [startNew]) together with the string operations its function decomposer
    is built from, and the properties of the specification stated over it. *)

From Stdlib Require Import String Ascii List Bool Arith ZArith Lia DecimalString.
Import ListNotations.

Local Open Scope string_scope.

(** * JavaScript strings and the regular expressions of [Task.start]

    Source texts are strings of 8-bit code units.  Every regular expression
    used by [Task.start] has at most one possible match at a given start
    position (each greedy class is followed by a character outside of it), so
    a pattern is embedded as the function giving the length of its match at
    the head of a string. *)

Module JsString.

Definition code (c : ascii) : nat := nat_of_ascii c.

(** Line terminators are what [.] refuses and what [$] stops at under the
    [m] flag. *)
Definition is_line_terminator (c : ascii) : bool :=
  (code c =? 10)%nat || (code c =? 13)%nat.

(** The class [\s] on 8-bit code units. *)
Definition is_space (c : ascii) : bool :=
  existsb (Nat.eqb (code c)) [9; 10; 11; 12; 13; 32; 160]%nat.

(** Length of the longest prefix whose characters all satisfy [p]. *)
Fixpoint run_length (p : ascii -> bool) (s : string) : nat :=
  match s with
  | String c r => if p c then S (run_length p r) else O
  | EmptyString => O
  end.

Fixpoint drop (n : nat) (s : string) : string :=
  match n, s with
  | S k, String _ r => drop k r
  | _, _ => s
  end.

Fixpoint take (n : nat) (s : string) : string :=
  match n, s with
  | S k, String c r => String c (take k r)
  | _, _ => EmptyString
  end.

Fixpoint starts_with (p s : string) : bool :=
  match p, s with
  | EmptyString, _ => true
  | String a p', String b s' => Ascii.eqb a b && starts_with p' s'
  | String _ _, EmptyString => false
  end.

Fixpoint ends_with_char (c : ascii) (s : string) : bool :=
  match s with
  | EmptyString => false
  | String a EmptyString => Ascii.eqb a c
  | String _ r => ends_with_char c r
  end.

Fixpoint remove_last (s : string) : string :=
  match s with
  | EmptyString => EmptyString
  | String _ EmptyString => EmptyString
  | String a r => String a (remove_last r)
  end.

(** A pattern: the length of its match at the head of the string, if any. *)
Definition pattern := string -> option nat.

(** [s.replace(/re/g, '')]: scan left to right; a match is dropped and the
    scan resumes behind it, otherwise one character is kept.  [skip] counts
    the characters of the current match still to drop.  Matches are never
    empty for the patterns used here. *)
Fixpoint replace_all_from (re : pattern) (skip : nat) (s : string) : string :=
  match s with
  | EmptyString => EmptyString
  | String c r =>
      match skip with
      | S k => replace_all_from re k r
      | O =>
          match re s with
          | Some (S n) => replace_all_from re n r
          | _ => String c (replace_all_from re O r)
          end
      end
  end.

Definition replace_all (re : pattern) (s : string) : string :=
  replace_all_from re O s.

(** [s.replace(/^re/, '')] for a pattern anchored at the start. *)
Definition replace_anchored (re : pattern) (s : string) : string :=
  match re s with
  | Some n => drop n s
  | None => s
  end.

(** [/[/][/].*$/mg]: two slashes and the rest of the line. *)
Definition re_line_comment : pattern := fun s =>
  if starts_with "//" s
  then Some (2 + run_length (fun c => negb (is_line_terminator c)) (drop 2 s))%nat
  else None.

(** [/\s+/g] *)
Definition re_spaces : pattern := fun s =>
  match run_length is_space s with
  | O => None
  | n => Some n
  end.

Definition is_slash_or_star (c : ascii) : bool :=
  Ascii.eqb c "/" || Ascii.eqb c "*".

(** [/[/][*][^/*]*[*][/]/g]: a block comment holding neither [/] nor [*]. *)
Definition re_block_comment : pattern := fun s =>
  if starts_with "/*" s then
    let n := run_length (fun c => negb (is_slash_or_star c)) (drop 2 s) in
    if starts_with "*/" (drop (2 + n) s) then Some (4 + n)%nat else None
  else None.

(** [/^[^(]*[(]/]: everything up to and including the first [(]. *)
Definition re_up_to_paren : pattern := fun s =>
  let n := run_length (fun c => negb (Ascii.eqb c "(")) s in
  if starts_with "(" (drop n s) then Some (S n) else None.

(** [/=[^,]+/g]: an equals sign and at least one character up to the next
    comma. *)
Definition re_default : pattern := fun s =>
  if starts_with "=" s then
    match run_length (fun c => negb (Ascii.eqb c ",")) (drop 1 s) with
    | O => None
    | n => Some (S n)
    end
  else None.

(** [s.split(sep, 1)[0]]: the text before the first occurrence of [sep], the
    whole string when there is none. *)
Fixpoint before_first (sep s : string) : string :=
  match s with
  | EmptyString => EmptyString
  | String c r => if starts_with sep s then EmptyString
                  else String c (before_first sep r)
  end.

(** [s.split(',')]: [cur] is the piece being read, reversed. *)
Fixpoint rev_string (acc s : string) : string :=
  match s with
  | EmptyString => acc
  | String c r => rev_string (String c acc) r
  end.

Fixpoint split_on (sep : ascii) (cur : string) (s : string) : list string :=
  match s with
  | EmptyString => [rev_string EmptyString cur]
  | String c r =>
      if Ascii.eqb c sep
      then rev_string EmptyString cur :: split_on sep EmptyString r
      else split_on sep (String c cur) r
  end.

Definition split (sep : ascii) (s : string) : list string :=
  split_on sep EmptyString s.

Definition nonempty (s : string) : bool :=
  match s with EmptyString => false | _ => true end.

(** The pattern of [funcStr.match], tried at the head of [s]: the keyword
    [function], at least one character other than [{], a [{], then any
    characters (the capture group, greedy) and a [}] that ends the input.
    The result is capture group 1. *)
Definition function_literal_at (s : string) : option string :=
  if starts_with "function" s then
    let after := drop 8 s in
    let n := run_length (fun c => negb (Ascii.eqb c "{")) after in
    match n, drop n after with
    | S _, String "{" rest =>
        if ends_with_char "}" rest then Some (remove_last rest) else None
    | _, _ => None
    end
  else None.

(** [s.match(re)]: the leftmost start position at which the pattern
    matches. *)
Fixpoint match_function_literal (s : string) : option string :=
  match function_literal_at s with
  | Some body => Some body
  | None =>
      match s with
      | EmptyString => None
      | String _ r => match_function_literal r
      end
  end.

End JsString.

(** * The function decomposer of [Task.start] *)

Module Decomposer.
Import JsString.

(** [func.args]: the chain of [replace], [split] and [filter] calls, in the
    order of the source. *)
Definition extract_args (funcStr : string) : list string :=
  let s1 := replace_all re_line_comment funcStr in
  let s2 := replace_all re_spaces s1 in
  let s3 := replace_all re_block_comment s2 in
  let s4 := before_first "){" s3 in
  let s5 := replace_anchored re_up_to_paren s4 in
  let s6 := replace_all re_default s5 in
  filter nonempty (split "," s6).

(** [func.body]; [None] stands for the [null] that [match] returns, on which
    the index [[1]] throws. *)
Definition extract_body (funcStr : string) : option string :=
  match_function_literal funcStr.

Record DecomposedFunction := {
  body : string;
  args : list string
}.

Definition decompose (funcStr : string) : option DecomposedFunction :=
  match extract_body funcStr with
  | Some b => Some {| body := b; args := extract_args funcStr |}
  | None => None
  end.

End Decomposer.

(** * JavaScript values

    Every object (function, array, plain object, error) carries the
    reference [ref] that is its identity; [===] compares objects by it.  A
    function is held by its source text, which is what ['' + f] yields.
    Numbers are the integers, exact as long as a double holds them, and
    [NaN]; the fields of an object have distinct keys. *)

Module Js.

Local Set Warnings "-register-all".

Inductive Value : Type :=
| VUndefined
| VNull
| VBool (b : bool)
| VNum (n : Z)
| VNaN
| VStr (s : string)
| VFunc (ref : nat) (src : string)
| VArr (ref : nat) (items : list Value)
| VObj (ref : nat) (fields : list (string * Value))
| VError (ref : nat) (name message : string).

(** [a === b] *)
Definition strict_eq (a b : Value) : bool :=
  match a, b with
  | VUndefined, VUndefined => true
  | VNull, VNull => true
  | VBool x, VBool y => Bool.eqb x y
  | VNum x, VNum y => Z.eqb x y
  | VStr x, VStr y => String.eqb x y
  | VFunc r _, VFunc r' _ => Nat.eqb r r'
  | VArr r _, VArr r' _ => Nat.eqb r r'
  | VObj r _, VObj r' _ => Nat.eqb r r'
  | VError r _ _, VError r' _ _ => Nat.eqb r r'
  | _, _ => false
  end.

(** [a !== b] *)
Definition strict_neq (a b : Value) : bool := negb (strict_eq a b).

(** The condition of [if (v)]. *)
Definition truthy (v : Value) : bool :=
  match v with
  | VUndefined | VNull | VNaN => false
  | VBool b => b
  | VNum n => negb (Z.eqb n 0)
  | VStr s => JsString.nonempty s
  | VFunc _ _ | VArr _ _ | VObj _ _ | VError _ _ _ => true
  end.

Definition typeof (v : Value) : string :=
  match v with
  | VUndefined => "undefined"
  | VNull => "object"
  | VBool _ => "boolean"
  | VNum _ | VNaN => "number"
  | VStr _ => "string"
  | VFunc _ _ => "function"
  | VArr _ _ | VObj _ _ | VError _ _ _ => "object"
  end.

(** [TypeUtils.isNullOrUndefined] of the [utils/types] module. *)
Definition isNullOrUndefined (v : Value) : bool :=
  match v with
  | VUndefined | VNull => true
  | _ => false
  end.

(** A value is absent when it is [undefined] or [null]. *)
Definition absent (v : Value) : Prop := v = VUndefined \/ v = VNull.

(** A value is invocable when it is a function. *)
Definition invocable (v : Value) : Prop := typeof v = "function".

(** [o[key]] on the fields of a plain object. *)
Fixpoint get_field (key : string) (fields : list (string * Value)) : Value :=
  match fields with
  | [] => VUndefined
  | (k, v) :: rest => if String.eqb k key then v else get_field key rest
  end.

End Js.

(** * [JSON.stringify] and [ToString] on the values of the model *)

Module Json.
Import Js.

Definition dquote : ascii := "034"%char.
Definition backslash : ascii := "092"%char.

Definition hex_digit (n : nat) : ascii :=
  nth n (list_ascii_of_string "0123456789abcdef") "0"%char.

(** The escape of one character inside a JSON string. *)
Definition escape_char (c : ascii) : string :=
  let n := nat_of_ascii c in
  if (n =? 34)%nat then String backslash (String dquote EmptyString)
  else if (n =? 92)%nat then String backslash (String backslash EmptyString)
  else if (n =? 8)%nat then String backslash "b"
  else if (n =? 12)%nat then String backslash "f"
  else if (n =? 10)%nat then String backslash "n"
  else if (n =? 13)%nat then String backslash "r"
  else if (n =? 9)%nat then String backslash "t"
  else if (n <? 32)%nat then
    String backslash
      (String "u" (String "0" (String "0"
         (String (hex_digit (n / 16)) (String (hex_digit (n mod 16)) EmptyString)))))
  else String c EmptyString.

Fixpoint escape (s : string) : string :=
  match s with
  | EmptyString => EmptyString
  | String c r => escape_char c ++ escape r
  end.

Definition quote (s : string) : string :=
  String dquote (escape s ++ String dquote EmptyString).

Definition string_of_Z (n : Z) : string :=
  DecimalString.NilZero.string_of_int (Z.to_int n).

Fixpoint join (sep : string) (l : list string) : string :=
  match l with
  | [] => EmptyString
  | [x] => x
  | x :: r => x ++ sep ++ join sep r
  end.

(** [JSON.stringify(v)]; [None] is the result [undefined].  An array keeps
    the place of a value without JSON text as [null], an object leaves the
    key out; an error object has no enumerable property of its own. *)
Fixpoint stringify (v : Value) : option string :=
  match v with
  | VUndefined | VFunc _ _ => None
  | VNull | VNaN => Some "null"
  | VBool true => Some "true"
  | VBool false => Some "false"
  | VNum n => Some (string_of_Z n)
  | VStr s => Some (quote s)
  | VArr _ items =>
      Some ("[" ++ join ","
              (map (fun x => match stringify x with
                             | Some t => t
                             | None => "null"
                             end) items) ++ "]")
  | VObj _ fields =>
      Some ("{" ++ join ","
              (flat_map (fun kv : string * Value =>
                           match stringify (snd kv) with
                           | Some t => [quote (fst kv) ++ ":" ++ t]
                           | None => []
                           end) fields) ++ "}")
  | VError _ _ _ => Some "{}"
  end.

Definition JSON_stringify (v : Value) : Value :=
  match stringify v with
  | Some text => VStr text
  | None => VUndefined
  end.

(** [ToString(v)], as in ['' + v]. *)
Fixpoint to_string (v : Value) : string :=
  match v with
  | VUndefined => "undefined"
  | VNull => "null"
  | VBool true => "true"
  | VBool false => "false"
  | VNum n => string_of_Z n
  | VNaN => "NaN"
  | VStr s => s
  | VFunc _ src => src
  | VArr _ items =>
      join "," (map (fun x => match x with
                              | VUndefined | VNull => EmptyString
                              | _ => to_string x
                              end) items)
  | VObj _ _ => "[object Object]"
  | VError _ name message =>
      match name, message with
      | EmptyString, _ => message
      | _, EmptyString => name
      | _, _ => name ++ ": " ++ message
      end
  end.

(** ** A reader for JSON texts

    It covers the JSON texts whose numbers are integers and whose characters
    are 8-bit code units, which is what [stringify] above produces.  Arrays
    and objects of the result take their identities from the counter [n]. *)

Definition is_digit (c : ascii) : bool :=
  let n := nat_of_ascii c in (48 <=? n)%nat && (n <=? 57)%nat.

Definition is_json_space (c : ascii) : bool :=
  existsb (Nat.eqb (nat_of_ascii c)) [9; 10; 13; 32]%nat.

Definition skip_ws (s : string) : string :=
  JsString.drop (JsString.run_length is_json_space s) s.

Definition hex_value (c : ascii) : option nat :=
  let n := nat_of_ascii c in
  if is_digit c then Some (n - 48)%nat
  else if (97 <=? n)%nat && (n <=? 102)%nat then Some (n - 87)%nat
  else if (65 <=? n)%nat && (n <=? 70)%nat then Some (n - 55)%nat
  else None.

(** The characters of a string literal behind its opening quote, and the
    text behind its closing quote; [acc] is what was read, reversed. *)
Fixpoint read_string (acc : string) (s : string) : option (string * string) :=
  match s with
  | EmptyString => None
  | String c r =>
      if Ascii.eqb c dquote then Some (JsString.rev_string EmptyString acc, r)
      else if Ascii.eqb c backslash then
        match r with
        | String "u" (String a (String b (String x (String y r')))) =>
            match hex_value a, hex_value b, hex_value x, hex_value y with
            | Some 0%nat, Some 0%nat, Some h, Some l =>
                read_string (String (ascii_of_nat (16 * h + l)) acc) r'
            | _, _, _, _ => None
            end
        | String e r' =>
            let unescaped :=
              if Ascii.eqb e dquote then Some dquote
              else if Ascii.eqb e backslash then Some backslash
              else if Ascii.eqb e "/" then Some "/"%char
              else if Ascii.eqb e "b" then Some "008"%char
              else if Ascii.eqb e "f" then Some "012"%char
              else if Ascii.eqb e "n" then Some "010"%char
              else if Ascii.eqb e "r" then Some "013"%char
              else if Ascii.eqb e "t" then Some "009"%char
              else None in
            match unescaped with
            | Some u => read_string (String u acc) r'
            | None => None
            end
        | EmptyString => None
        end
      else if (nat_of_ascii c <? 32)%nat then None
      else read_string (String c acc) r
  end.

(** An integer literal at the head of [s]: no leading zero, no fraction and
    no exponent behind it. *)
Definition read_number (s : string) : option (Z * string) :=
  let body := match s with String "-" r => r | _ => s end in
  let n := JsString.run_length is_digit body in
  let rest := JsString.drop n body in
  let digits := JsString.take n body in
  let clean :=
    match digits with
    | EmptyString => false
    | String "0" (String _ _) => false
    | _ => true
    end in
  let ends :=
    match rest with
    | String c _ => negb (Ascii.eqb c "." || Ascii.eqb c "e" || Ascii.eqb c "E")
    | EmptyString => true
    end in
  if clean && ends then
    match DecimalString.NilZero.int_of_string
            (JsString.take (String.length s - String.length rest) s) with
    | Some i => Some (Z.of_int i, rest)
    | None => None
    end
  else None.

Fixpoint read_value (fuel : nat) (n : nat) (s : string)
  : option (Value * string * nat) :=
  match fuel with
  | O => None
  | S fuel' =>
      match skip_ws s with
      | String c r as t =>
          if Ascii.eqb c dquote then
            match read_string EmptyString r with
            | Some (text, rest) => Some (VStr text, rest, n)
            | None => None
            end
          else if Ascii.eqb c "[" then
            match skip_ws r with
            | String "]" rest => Some (VArr n [], rest, S n)
            | _ =>
                match read_items fuel' (S n) r with
                | Some (items, rest, n') => Some (VArr n items, rest, n')
                | None => None
                end
            end
          else if Ascii.eqb c "{" then
            match skip_ws r with
            | String "}" rest => Some (VObj n [], rest, S n)
            | _ =>
                match read_members fuel' (S n) r with
                | Some (fields, rest, n') => Some (VObj n fields, rest, n')
                | None => None
                end
            end
          else if JsString.starts_with "null" t then
            Some (VNull, JsString.drop 4 t, n)
          else if JsString.starts_with "true" t then
            Some (VBool true, JsString.drop 4 t, n)
          else if JsString.starts_with "false" t then
            Some (VBool false, JsString.drop 5 t, n)
          else
            match read_number t with
            | Some (z, rest) => Some (VNum z, rest, n)
            | None => None
            end
      | EmptyString => None
      end
  end

with read_items (fuel : nat) (n : nat) (s : string)
  : option (list Value * string * nat) :=
  match fuel with
  | O => None
  | S fuel' =>
      match read_value fuel' n s with
      | Some (v, rest, n') =>
          match skip_ws rest with
          | String "]" rest' => Some ([v], rest', n')
          | String "," rest' =>
              match read_items fuel' n' rest' with
              | Some (vs, rest'', n'') => Some (v :: vs, rest'', n'')
              | None => None
              end
          | _ => None
          end
      | None => None
      end
  end

with read_members (fuel : nat) (n : nat) (s : string)
  : option (list (string * Value) * string * nat) :=
  match fuel with
  | O => None
  | S fuel' =>
      match skip_ws s with
      | String c r =>
          if Ascii.eqb c dquote then
            match read_string EmptyString r with
            | Some (key, rest) =>
                match skip_ws rest with
                | String ":" rest1 =>
                    match read_value fuel' n rest1 with
                    | Some (v, rest2, n') =>
                        match skip_ws rest2 with
                        | String "}" rest3 => Some ([(key, v)], rest3, n')
                        | String "," rest3 =>
                            match read_members fuel' n' rest3 with
                            | Some (kvs, rest4, n'') =>
                                Some ((key, v) :: kvs, rest4, n'')
                            | None => None
                            end
                        | _ => None
                        end
                    | None => None
                    end
                | _ => None
                end
            | None => None
            end
          else None
      | EmptyString => None
      end
  end.

(** The whole text must be one value. *)
Definition parse (text : string) (n : nat) : option (Value * nat) :=
  match read_value (S (String.length text)) n text with
  | Some (v, rest, n') =>
      match skip_ws rest with
      | EmptyString => Some (v, n')
      | _ => None
      end
  | None => None
  end.

End Json.

(** * The task module *)

Module Tasks.
Import Js.

(** [enum TaskStatus], in declaration order. *)
Inductive TaskStatus : Type :=
| Created
| Faulted
| RanToCompletion
| Running
| WaitingToRun.

(** The number an enum member stands for. *)
Definition status_code (s : TaskStatus) : Z :=
  match s with
  | Created => 0
  | Faulted => 1
  | RanToCompletion => 2
  | Running => 3
  | WaitingToRun => 4
  end.

Definition status_eqb (a b : TaskStatus) : bool :=
  Z.eqb (status_code a) (status_code b).

(** The reverse mapping [TaskStatus[code]]. *)
Definition status_name (s : TaskStatus) : string :=
  match s with
  | Created => "Created"
  | Faulted => "Faulted"
  | RanToCompletion => "RanToCompletion"
  | Running => "Running"
  | WaitingToRun => "WaitingToRun"
  end.

(** The fields of a [Task].  [_status] is [None] while the field is still
    [undefined], that is until the constructor has set it. *)
Record Task := {
  _FUNC : Value;
  _error : Value;
  _status : option TaskStatus
}.

(** [interface TaskResult]: the object handed to [resolve] carries [data]
    and [state], the one handed to [reject] carries [error] and [state]. *)
Inductive TaskResult : Type :=
| ResultData (data state : Value)
| ResultError (error state : Value).

Inductive Settlement : Type :=
| Pending
| Resolved (r : TaskResult)
| Rejected (r : TaskResult).

(** A worker channel: whether it is alive (created and not terminated), the
    promise and the [state] captured by the two handlers [Task.start] puts
    on it, and the messages posted to it. *)
Record Channel := {
  alive : bool;
  handlers : option (nat * Value);
  posted : list Value
}.

(** The state the code runs in: the task object [me], the allocation
    counter for object identities, the error [new Worker] would throw (if
    any), the worker channels and promises created so far (a channel or
    promise is named by its position), and the property-change
    notifications raised, oldest first. *)
Record Sys := {
  me : Task;
  next_ref : nat;
  worker_fault : option Value;
  channels : list Channel;
  promises : list Settlement;
  notifications : list (string * Value)
}.

(** ** Computations that read and write [Sys] and may throw *)

Inductive Outcome (A : Type) : Type :=
| Return (a : A)
| Throw (e : Value).
Arguments Return {A} a.
Arguments Throw {A} e.

Definition M (A : Type) : Type := Sys -> Outcome A * Sys.

Definition ret {A} (a : A) : M A := fun s => (Return a, s).

Definition throw {A} (e : Value) : M A := fun s => (Throw e, s).

Definition bind {A B} (m : M A) (k : A -> M B) : M B := fun s =>
  match m s with
  | (Return a, s') => k a s'
  | (Throw e, s') => (Throw e, s')
  end.

(** [try { body } catch (e) { handler e }] *)
Definition try_catch {A} (body : M A) (handler : Value -> M A) : M A := fun s =>
  match body s with
  | (Return a, s') => (Return a, s')
  | (Throw e, s') => handler e s'
  end.

Definition gets {A} (f : Sys -> A) : M A := fun s => (Return (f s), s).

Definition modify (f : Sys -> Sys) : M unit := fun s => (Return tt, f s).

Declare Scope js_scope.
Delimit Scope js_scope with js.
Notation "x <- m ;; k" := (bind m (fun x => k))
  (at level 61, m at next level, right associativity) : js_scope.
Notation "m ;; k" := (bind m (fun _ => k))
  (at level 61, right associativity) : js_scope.
Local Open Scope js_scope.

Definition set_me (t : Task) (s : Sys) : Sys :=
  {| me := t; next_ref := next_ref s; worker_fault := worker_fault s;
     channels := channels s; promises := promises s;
     notifications := notifications s |}.

Definition set_next_ref (n : nat) (s : Sys) : Sys :=
  {| me := me s; next_ref := n; worker_fault := worker_fault s;
     channels := channels s; promises := promises s;
     notifications := notifications s |}.

Definition set_channels (c : list Channel) (s : Sys) : Sys :=
  {| me := me s; next_ref := next_ref s; worker_fault := worker_fault s;
     channels := c; promises := promises s;
     notifications := notifications s |}.

Definition set_promises (p : list Settlement) (s : Sys) : Sys :=
  {| me := me s; next_ref := next_ref s; worker_fault := worker_fault s;
     channels := channels s; promises := p;
     notifications := notifications s |}.

Definition set_notifications (n : list (string * Value)) (s : Sys) : Sys :=
  {| me := me s; next_ref := next_ref s; worker_fault := worker_fault s;
     channels := channels s; promises := promises s;
     notifications := n |}.

(** Replace the element at position [i]; nothing happens out of range. *)
Fixpoint update_nth {A} (i : nat) (f : A -> A) (l : list A) : list A :=
  match l, i with
  | [], _ => []
  | x :: r, O => f x :: r
  | x :: r, S k => x :: update_nth k f r
  end.

(** A fresh object identity. *)
Definition fresh : M nat := fun s =>
  (Return (next_ref s), set_next_ref (S (next_ref s)) s).

(** [new Error(message)] *)
Definition new_Error (message : string) : M Value :=
  r <- fresh ;; ret (VError r "Error" message).

(** The [TypeError] raised by indexing [null]. *)
Definition null_index_message : string := "Cannot read property '1' of null".

Definition throw_TypeError {A} (message : string) : M A :=
  r <- fresh ;; throw (VError r "TypeError" message).

(** [Observable.notifyPropertyChange(name, value)] *)
Definition notifyPropertyChange (name : string) (value : Value) : M unit :=
  modify (fun s => set_notifications (notifications s ++ [(name, value)]) s).

(** [new Promise(...)]: the new promise, pending. *)
Definition new_Promise : M nat := fun s =>
  (Return (length (promises s)), set_promises (promises s ++ [Pending]) s).

(** Only a pending promise can be settled. *)
Definition settle (p : nat) (outcome : Settlement) : M unit :=
  modify (fun s =>
    set_promises
      (update_nth p (fun old => match old with Pending => outcome | _ => old end)
                  (promises s)) s).

Definition resolve (p : nat) (r : TaskResult) : M unit := settle p (Resolved r).
Definition reject (p : nat) (r : TaskResult) : M unit := settle p (Rejected r).

(** [new Worker('./worker')] *)
Definition new_Worker : M nat := fun s =>
  match worker_fault s with
  | Some e => (Throw e, s)
  | None =>
      (Return (length (channels s)),
       set_channels
         (channels s ++ [{| alive := true; handlers := None; posted := [] |}]) s)
  end.

(** [worker.onmessage = ...; worker.onerror = ...]: both closures capture
    the promise of the call and its [state]. *)
Definition set_handlers (w p : nat) (state : Value) : M unit :=
  modify (fun s =>
    set_channels
      (update_nth w (fun c => {| alive := alive c; handlers := Some (p, state);
                                 posted := posted c |}) (channels s)) s).

(** [worker.terminate()] *)
Definition terminate (w : nat) : M unit :=
  modify (fun s =>
    set_channels
      (update_nth w (fun c => {| alive := false; handlers := handlers c;
                                 posted := posted c |}) (channels s)) s).

(** [worker.postMessage(message)] *)
Definition postMessage (w : nat) (message : Value) : M unit :=
  modify (fun s =>
    set_channels
      (update_nth w (fun c => {| alive := alive c; handlers := handlers c;
                                 posted := posted c ++ [message] |})
                  (channels s)) s).

(** ** class Task *)

Definition status_value (st : TaskStatus) : Value := VNum (status_code st).

(** The value read from [this._status]. *)
Definition status_field (t : Task) : Value :=
  match _status t with
  | Some st => status_value st
  | None => VUndefined
  end.

Definition with_FUNC (f : Value) (t : Task) : Task :=
  {| _FUNC := f; _error := _error t; _status := _status t |}.

Definition with_error (e : Value) (t : Task) : Task :=
  {| _FUNC := _FUNC t; _error := e; _status := _status t |}.

Definition with_status (st : TaskStatus) (t : Task) : Task :=
  {| _FUNC := _FUNC t; _error := _error t; _status := Some st |}.

(** The getters [error], [func] and [status]. *)
Definition error (s : Sys) : Value := _error (me s).
Definition func (s : Sys) : Value := _FUNC (me s).
Definition status (s : Sys) : option TaskStatus := _status (me s).

Definition updateError (newValue : Value) : M bool :=
  old <- gets error ;;
  if strict_neq newValue old then
    modify (fun s => set_me (with_error newValue (me s)) s) ;;
    notifyPropertyChange "error" newValue ;;
    ret true
  else ret false.

Definition updateStatus (newValue : TaskStatus) : M bool :=
  old <- gets (fun s => status_field (me s)) ;;
  if strict_neq (status_value newValue) old then
    modify (fun s => set_me (with_status newValue (me s)) s) ;;
    notifyPropertyChange "status" (status_value newValue) ;;
    ret true
  else ret false.

(** The object a [new Task(...)] expression starts from: no field set. *)
Definition blank : Task :=
  {| _FUNC := VUndefined; _error := VUndefined; _status := None |}.

Definition constructor (func : Value) : M unit :=
  (if negb (isNullOrUndefined func) then
     if negb (String.eqb (typeof func) "function")
     then throw (VStr "'func' must be a function!")
     else ret tt
   else ret tt) ;;
  modify (fun s => set_me (with_FUNC func (me s)) s) ;;
  _ <- updateStatus Created ;;
  ret tt.

(** The closure [completed] of [start]; [p] and [state] are the promise and
    the argument of the call it belongs to. *)
Definition completed (p : nat) (state err data : Value) : M unit :=
  (if truthy err
   then reject p (ResultError err state)
   else resolve p (ResultData data state)) ;;
  _ <- updateError err ;;
  ret tt.

(** The cases of [switch (me._status)] that [break]. *)
Definition may_start (st : option TaskStatus) : bool :=
  match st with
  | Some Created | Some Faulted | Some RanToCompletion => true
  | _ => false
  end.

(** [TaskStatus[me._status]] inside the template string. *)
Definition status_text (st : option TaskStatus) : string :=
  match st with
  | Some x => status_name x
  | None => "undefined"
  end.

Definition conflict_message (st : option TaskStatus) : string :=
  "Cannot start while in '" ++ status_text st ++ "' state!".

(** [let func; if (me._FUNC) { func = {}; func.body = ...; func.args = ... }] *)
Definition decompose_FUNC : M Value :=
  f <- gets func ;;
  if truthy f then
    o <- fresh ;;
    let funcStr := Json.to_string f in
    match Decomposer.extract_body funcStr with
    | None => throw_TypeError null_index_message
    | Some b =>
        a <- fresh ;;
        ret (VObj o [("body", VStr b);
                     ("args", VArr a (map VStr (Decomposer.extract_args funcStr)))])
    end
  else ret VUndefined.

(** [start(state)]: the promise executor runs at once, inside
    [new Promise]; the result is the promise. *)
Definition start (state : Value) : M nat :=
  p <- new_Promise ;;
  st <- gets status ;;
  (if may_start st then
     try_catch
       (_ <- updateStatus WaitingToRun ;;
        w <- new_Worker ;;
        set_handlers w p state ;;
        func <- decompose_FUNC ;;
        _ <- updateStatus Running ;;
        m <- fresh ;;
        postMessage w
          (Json.JSON_stringify (VObj m [("func", func); ("state", state)])))
       (fun e =>
          _ <- updateStatus Faulted ;;
          completed p state e VUndefined)
   else
     err <- new_Error (conflict_message st) ;;
     completed p state err VUndefined) ;;
  ret p.

(** [newTask(func)]: [new Task(func)] on a new object. *)
Definition newTask (func : Value) : M unit :=
  modify (set_me blank) ;;
  constructor func.

(** [startNew(func, state)] *)
Definition startNew (func state : Value) : M nat :=
  newTask func ;;
  start state.

(** ** The handlers put on the worker

    [JSON.parse] belongs to the runtime: it receives the value to parse and
    the first free object identity, and returns the parsed value or throws,
    together with the next free identity. *)

Section Handlers.

Variable JSON_parse : Value -> nat -> Outcome Value * nat.

Definition json_parse (text : Value) : M Value := fun s =>
  let (r, n) := JSON_parse text (next_ref s) in (r, set_next_ref n s).

(** [worker.onmessage] of [index.ts]; [data] is [msg.data]. *)
Definition worker_onmessage (w p : nat) (state data : Value) : M unit :=
  terminate w ;;
  result <- (if truthy data then json_parse data else ret data) ;;
  _ <- updateStatus RanToCompletion ;;
  completed p state VNull result.

(** [worker.onerror] *)
Definition worker_onerror (p : nat) (state err : Value) : M unit :=
  _ <- updateStatus Faulted ;;
  completed p state err VUndefined.

(** [worker_1.onmessage] of the compiled [index.js], which parses
    [msg.data] whatever it is. *)
Definition worker_onmessage_js (w p : nat) (state data : Value) : M unit :=
  terminate w ;;
  _ <- updateStatus RanToCompletion ;;
  result <- json_parse data ;;
  completed p state VNull result.

(** What [worker.onmessage] passes on as [result]: the parsed payload, or
    the payload itself when it is falsy. *)
Definition payload_result (data : Value) (n : nat) : Outcome Value :=
  if truthy data then fst (JSON_parse data n) else Return data.

(** What a worker reports: one message, or one error. *)
Inductive Response : Type :=
| Success (payload : Value)
| Failure (err : Value).

(** The runtime hands a response of channel [w] to the handler registered
    for it; a terminated channel delivers nothing. *)
Definition deliver (w : nat) (r : Response) : M unit :=
  c <- gets (fun s => nth_error (channels s) w) ;;
  match c with
  | Some {| alive := true; handlers := Some (p, state) |} =>
      match r with
      | Success payload => worker_onmessage w p state payload
      | Failure err => worker_onerror p state err
      end
  | _ => ret tt
  end.

End Handlers.

(** A state with no task, channel or promise yet; the objects that exist
    have identities below [n]. *)
Definition boot (n : nat) : Sys :=
  {| me := blank; next_ref := n; worker_fault := None; channels := [];
     promises := []; notifications := [] |}.

(** The settlement of promise [p]. *)
Definition promise_state (p : nat) (s : Sys) : Settlement :=
  nth p (promises s) Pending.

Definition channel_alive (w : nat) (s : Sys) : bool :=
  match nth_error (channels s) w with
  | Some c => alive c
  | None => false
  end.

(** The values carried by the notifications for property [name]. *)
Definition notified (name : string) (l : list (string * Value)) : list Value :=
  map snd (filter (fun n => String.eqb (fst n) name) l).

(** ** Notions used to state what the operations do *)

(** What [updateError] leaves in the field. *)
Definition stored (newValue old : Value) : Value :=
  if strict_neq newValue old then newValue else old.

(** The notification [updateError] raises. *)
Definition error_notice (newValue old : Value) : list (string * Value) :=
  if strict_neq newValue old then [("error", newValue)] else [].

(** The notification [updateStatus] raises. *)
Definition status_notice (newValue : TaskStatus) (old : option TaskStatus)
  : list (string * Value) :=
  if strict_neq (status_value newValue)
       (match old with Some x => status_value x | None => VUndefined end)
  then [("status", status_value newValue)] else [].

(** What [resolve] and [reject] do to a promise. *)
Definition settled (outcome old : Settlement) : Settlement :=
  match old with
  | Pending => outcome
  | _ => old
  end.

(** The settlement [completed] asks for. *)
Definition verdict (err data state : Value) : Settlement :=
  if truthy err then Rejected (ResultError err state)
  else Resolved (ResultData data state).

(** The object [func] of the message: absent without a function. *)
Definition func_descriptor (s : Sys) : Value :=
  if truthy (func s) then
    match Decomposer.extract_body (Json.to_string (func s)) with
    | Some b =>
        VObj (next_ref s)
          [("body", VStr b);
           ("args", VArr (S (next_ref s))
                      (map VStr (Decomposer.extract_args (Json.to_string (func s)))))]
    | None => VUndefined
    end
  else VUndefined.

(** The identity of the message object. *)
Definition message_ref (s : Sys) : nat :=
  if truthy (func s) then S (S (next_ref s)) else next_ref s.

(** What [worker.terminate()] does to a channel. *)
Definition terminated (c : Channel) : Channel :=
  {| alive := false; handlers := handlers c; posted := posted c |}.

End Tasks.

(** * A fragment of JavaScript function bodies

    What [new Function(p1, ..., body)] builds and a call of it computes, for
    bodies made of [var x = e;], [return e;], [return;], [throw e;] and
    [e;] statements whose expressions are integer and string literals,
    variables, member reads [e.name], parentheses, unary [-] and the binary
    operators [+], [-] and [*], with line comments.  Everything else is
    outside of the fragment, and the result is then [None]. *)

Module MiniJs.
Import Js.

Inductive Token : Type :=
| TNum (n : Z)
| TStr (s : string)
| TWord (w : string)
| TPunct (c : ascii)
| TLine.

(** What the scanner is in the middle of: nothing, a number (a literal with
    a leading zero is left out), a word, a string literal opened by [q], a
    slash that may open a line comment, or a line comment. *)
Inductive Lex : Type :=
| LIdle
| LNum (n : Z)
| LWord (rev : string)
| LText (q : ascii) (rev : string)
| LSlash
| LLine.

Definition is_letter (c : ascii) : bool :=
  let n := nat_of_ascii c in
  ((65 <=? n) && (n <=? 90) || (97 <=? n) && (n <=? 122)
   || (n =? 95) || (n =? 36))%nat.

Definition is_punct (c : ascii) : bool :=
  existsb (Ascii.eqb c) (list_ascii_of_string "(){};.,+-*=").

Definition digit_value (c : ascii) : Z := Z.of_nat (nat_of_ascii c - 48).

(** The tokens a pending state stands for at the end of a token. *)
Definition flush (st : Lex) : option (list Token) :=
  match st with
  | LIdle | LLine => Some []
  | LNum n => Some [TNum n]
  | LWord r => Some [TWord (JsString.rev_string EmptyString r)]
  | LText _ _ | LSlash => None
  end.

(** A character met between tokens. *)
Definition open_char (c : ascii) : option (list Token * Lex) :=
  if Json.is_digit c then Some ([], LNum (digit_value c))
  else if is_letter c then Some ([], LWord (String c EmptyString))
  else if JsString.is_line_terminator c then Some ([TLine], LIdle)
  else if JsString.is_space c then Some ([], LIdle)
  else if Ascii.eqb c Json.dquote || Ascii.eqb c "'" then
    Some ([], LText c EmptyString)
  else if Ascii.eqb c "/" then Some ([], LSlash)
  else if is_punct c then Some ([TPunct c], LIdle)
  else None.

(** The tokens completed by character [c] met in state [st], and the state
    behind it. *)
Definition step (st : Lex) (c : ascii) : option (list Token * Lex) :=
  let close :=
    match flush st, open_char c with
    | Some done, Some (toks, st') => Some ((done ++ toks)%list, st')
    | _, _ => None
    end in
  match st with
  | LText q acc =>
      if Ascii.eqb c q then
        Some ([TStr (JsString.rev_string EmptyString acc)], LIdle)
      else if Ascii.eqb c Json.backslash || JsString.is_line_terminator c
      then None
      else Some ([], LText q (String c acc))
  | LLine =>
      if JsString.is_line_terminator c then Some ([TLine], LIdle)
      else Some ([], LLine)
  | LSlash => if Ascii.eqb c "/" then Some ([], LLine) else None
  | LNum n =>
      if Json.is_digit c then
        if (n =? 0)%Z then None else Some ([], LNum (10 * n + digit_value c))
      else if is_letter c || Ascii.eqb c "." then None
      else close
  | LWord acc =>
      if is_letter c || Json.is_digit c then Some ([], LWord (String c acc))
      else close
  | LIdle => close
  end.

Fixpoint lex (st : Lex) (s : string) : option (list Token) :=
  match s with
  | EmptyString => flush st
  | String c r =>
      match step st c with
      | Some (toks, st') =>
          match lex st' r with
          | Some more => Some (toks ++ more)%list
          | None => None
          end
      | None => None
      end
  end.

Inductive Expr : Type :=
| ENum (n : Z)
| EStr (s : string)
| EVar (x : string)
| EMember (e : Expr) (name : string)
| ENeg (e : Expr)
| EAdd (a b : Expr)
| ESub (a b : Expr)
| EMul (a b : Expr).

Inductive Stmt : Type :=
| SVar (x : string) (e : Expr)
| SReturn (e : option Expr)
| SThrow (e : Expr)
| SExpr (e : Expr).

Definition reserved (w : string) : bool :=
  existsb (String.eqb w)
    ["var"; "return"; "throw"; "function"; "new"; "this"; "typeof"; "if";
     "else"; "for"; "while"; "do"; "let"; "const"; "true"; "false"; "null";
     "undefined"; "NaN"; "delete"; "void"; "in"; "instanceof"; "try";
     "catch"; "switch"; "case"; "class"; "yield"; "await"].

(** The member reads that follow a primary expression; a call is outside
    of the fragment. *)
Fixpoint parse_members (e : Expr) (ts : list Token) : option (Expr * list Token) :=
  match ts with
  | TPunct "." :: TWord name :: rest => parse_members (EMember e name) rest
  | TPunct "." :: _ => None
  | TPunct "(" :: _ => None
  | _ => Some (e, ts)
  end.

(** Expressions by precedence: [parse_sum] reads [+] and [-] over
    [parse_product], which reads [*] over [parse_unary]; the [_rest]
    functions read the operators that follow a left operand. *)
Fixpoint parse_sum (fuel : nat) (ts : list Token) : option (Expr * list Token) :=
  match fuel with
  | O => None
  | S f =>
      match parse_product f ts with
      | Some (lhs, rest) => parse_sum_rest f lhs rest
      | None => None
      end
  end

with parse_sum_rest (fuel : nat) (lhs : Expr) (ts : list Token)
  : option (Expr * list Token) :=
  match fuel with
  | O => None
  | S f =>
      match ts with
      | TPunct "+" :: rest =>
          match parse_product f rest with
          | Some (rhs, rest') => parse_sum_rest f (EAdd lhs rhs) rest'
          | None => None
          end
      | TPunct "-" :: rest =>
          match parse_product f rest with
          | Some (rhs, rest') => parse_sum_rest f (ESub lhs rhs) rest'
          | None => None
          end
      | _ => Some (lhs, ts)
      end
  end

with parse_product (fuel : nat) (ts : list Token) : option (Expr * list Token) :=
  match fuel with
  | O => None
  | S f =>
      match parse_unary f ts with
      | Some (lhs, rest) => parse_product_rest f lhs rest
      | None => None
      end
  end

with parse_product_rest (fuel : nat) (lhs : Expr) (ts : list Token)
  : option (Expr * list Token) :=
  match fuel with
  | O => None
  | S f =>
      match ts with
      | TPunct "*" :: rest =>
          match parse_unary f rest with
          | Some (rhs, rest') => parse_product_rest f (EMul lhs rhs) rest'
          | None => None
          end
      | _ => Some (lhs, ts)
      end
  end

with parse_unary (fuel : nat) (ts : list Token) : option (Expr * list Token) :=
  match fuel with
  | O => None
  | S f =>
      match ts with
      | TPunct "-" :: rest =>
          match parse_unary f rest with
          | Some (e, rest') => Some (ENeg e, rest')
          | None => None
          end
      | TNum n :: rest => parse_members (ENum n) rest
      | TStr t :: rest => parse_members (EStr t) rest
      | TWord w :: rest =>
          if reserved w then None else parse_members (EVar w) rest
      | TPunct "(" :: rest =>
          match parse_sum f rest with
          | Some (e, TPunct ")" :: rest') => parse_members e rest'
          | _ => None
          end
      | _ => None
      end
  end.

(** Statements, each closed by its semicolon. *)
Fixpoint parse_stmts (fuel : nat) (ts : list Token) : option (list Stmt) :=
  match fuel with
  | O => None
  | S f =>
      let continue (st : Stmt) (rest : list Token) :=
        match parse_stmts f rest with
        | Some more => Some (st :: more)
        | None => None
        end in
      match ts with
      | [] => Some []
      | TWord "var" :: TWord x :: TPunct "=" :: rest =>
          if reserved x then None else
          match parse_sum f rest with
          | Some (e, TPunct ";" :: rest') => continue (SVar x e) rest'
          | _ => None
          end
      | TWord "return" :: TPunct ";" :: rest => continue (SReturn None) rest
      | TWord "return" :: rest =>
          match parse_sum f rest with
          | Some (e, TPunct ";" :: rest') => continue (SReturn (Some e)) rest'
          | _ => None
          end
      | TWord "throw" :: rest =>
          match parse_sum f rest with
          | Some (e, TPunct ";" :: rest') => continue (SThrow e) rest'
          | _ => None
          end
      | _ =>
          match parse_sum f ts with
          | Some (e, TPunct ";" :: rest') => continue (SExpr e) rest'
          | _ => None
          end
      end
  end.

Fixpoint contains (p s : string) : bool :=
  JsString.starts_with p s ||
  match s with
  | EmptyString => false
  | String _ r => contains p r
  end.

(** A line end right behind [return] or [throw] ends the statement there,
    which the statements below do not cover. *)
Fixpoint line_after_keyword (ts : list Token) : bool :=
  match ts with
  | TWord w :: (TLine :: _) as rest =>
      String.eqb w "return" || String.eqb w "throw" || line_after_keyword rest
  | _ :: rest => line_after_keyword rest
  | [] => false
  end.

Definition is_line (t : Token) : bool :=
  match t with TLine => true | _ => false end.

(** The tokens of a text.  The operators [++] and [--] are outside of the
    fragment; line ends matter behind [return] and [throw] only. *)
Definition tokens (src : string) : option (list Token) :=
  if contains "++" src || contains "--" src then None
  else
    match lex LIdle src with
    | Some ts =>
        if line_after_keyword ts then None
        else Some (filter (fun t => negb (is_line t)) ts)
    | None => None
    end.

Definition parse_body (body : string) : option (list Stmt) :=
  match tokens body with
  | Some ts => parse_stmts (10 * List.length ts + 10) ts
  | None => None
  end.

(** Integers that a JavaScript number holds exactly. *)
Definition safe (n : Z) : bool :=
  (Z.abs n <=? 9007199254740991)%Z.

Definition number (n : Z) : option Value :=
  if safe n then Some (VNum n) else None.

Definition is_primitive (v : Value) : bool :=
  match v with
  | VUndefined | VNull | VBool _ | VNum _ | VNaN | VStr _ => true
  | _ => false
  end.

(** [a + b]: text as soon as one operand is a string. *)
Definition add (a b : Value) : option Value :=
  match a, b with
  | VNum x, VNum y => number (x + y)
  | VNum _, (VUndefined | VNaN) | (VUndefined | VNaN), VNum _
  | (VUndefined | VNaN), (VUndefined | VNaN) => Some VNaN
  | VStr x, _ =>
      if is_primitive b then Some (VStr (x ++ Json.to_string b)) else None
  | _, VStr y =>
      if is_primitive a then Some (VStr (Json.to_string a ++ y)) else None
  | _, _ => None
  end.

(** [a - b] and [a * b] on numbers. *)
Definition arith (op : Z -> Z -> Z) (a b : Value) : option Value :=
  match a, b with
  | VNum x, VNum y => number (op x y)
  | VNum _, (VUndefined | VNaN) | (VUndefined | VNaN), VNum _
  | (VUndefined | VNaN), (VUndefined | VNaN) => Some VNaN
  | _, _ => None
  end.

Definition Env := list (string * Value).

Fixpoint lookup (x : string) (env : Env) : option Value :=
  match env with
  | [] => None
  | (y, v) :: rest => if String.eqb x y then Some v else lookup x rest
  end.

(** The value of an expression; no expression of the fragment throws except
    a member read on [undefined] or [null], which is left out. *)
Fixpoint eval (env : Env) (e : Expr) : option Value :=
  match e with
  | ENum n => number n
  | EStr t => Some (VStr t)
  | EVar x => lookup x env
  | EMember o name =>
      match eval env o with
      | Some (VObj _ fields) => Some (get_field name fields)
      | _ => None
      end
  | ENeg a =>
      match eval env a with
      | Some (VNum x) => number (- x)
      | Some (VUndefined | VNaN) => Some VNaN
      | _ => None
      end
  | EAdd a b =>
      match eval env a, eval env b with
      | Some x, Some y => add x y
      | _, _ => None
      end
  | ESub a b =>
      match eval env a, eval env b with
      | Some x, Some y => arith Z.sub x y
      | _, _ => None
      end
  | EMul a b =>
      match eval env a, eval env b with
      | Some x, Some y => arith Z.mul x y
      | _, _ => None
      end
  end.

(** How a call ends. *)
Inductive Completion : Type :=
| Returns (v : Value)
| Throws (e : Value).

Fixpoint exec (env : Env) (body : list Stmt) : option Completion :=
  match body with
  | [] => Some (Returns VUndefined)
  | SVar x e :: rest =>
      match eval env e with
      | Some v => exec ((x, v) :: env) rest
      | None => None
      end
  | SReturn None :: _ => Some (Returns VUndefined)
  | SReturn (Some e) :: _ =>
      match eval env e with
      | Some v => Some (Returns v)
      | None => None
      end
  | SThrow e :: _ =>
      match eval env e with
      | Some v => Some (Throws v)
      | None => None
      end
  | SExpr e :: rest =>
      match eval env e with
      | Some _ => exec env rest
      | None => None
      end
  end.

(** A parameter name must be one identifier. *)
Definition is_identifier (name : string) : bool :=
  match lex LIdle name with
  | Some [TWord w] => String.eqb w name && negb (reserved w)
  | _ => false
  end.

(** Parameters take the arguments by position; a parameter without
    argument is [undefined]. *)
Fixpoint bind_params (params : list string) (actuals : list Value) : Env :=
  match params with
  | [] => []
  | x :: rest =>
      match actuals with
      | v :: more => (bind_params rest more ++ [(x, v)])%list
      | [] => (bind_params rest [] ++ [(x, VUndefined)])%list
      end
  end.

(** [new Function(params..., body)(actuals...)] *)
Definition call (params : list string) (body : string) (actuals : list Value)
  : option Completion :=
  if forallb is_identifier params then
    match parse_body body with
    | Some stmts => exec (bind_params params actuals) stmts
    | None => None
    end
  else None.

(** The parameter names of a function expression, behind its [(]. *)
Fixpoint parse_params (ts : list Token) : option (list string * list Token) :=
  match ts with
  | TPunct ")" :: rest => Some ([], rest)
  | TWord x :: TPunct ")" :: rest => Some ([x], rest)
  | TWord x :: TPunct "," :: rest =>
      match parse_params rest with
      | Some (xs, rest') => Some (x :: xs, rest')
      | None => None
      end
  | _ => None
  end.

(** A call of the function expression [src] itself,
    [function name(p1, ...) { body }], read token by token. *)
Definition call_literal (src : string) (actuals : list Value)
  : option Completion :=
  match tokens src with
  | Some (TWord "function" :: ts) =>
      let ts' := match ts with TWord _ :: r => r | _ => ts end in
      match ts' with
      | TPunct "(" :: r =>
          match parse_params r with
          | Some (params, TPunct "{" :: inner) =>
              match rev inner with
              | TPunct "}" :: rbody =>
                  if forallb is_identifier params then
                    match parse_stmts (10 * List.length rbody + 10) (rev rbody) with
                    | Some stmts => exec (bind_params params actuals) stmts
                    | None => None
                    end
                  else None
              | _ => None
              end
          | _ => None
          end
      | _ => None
      end
  | _ => None
  end.

End MiniJs.

(** * The worker side *)

Module Worker.
Import Js Tasks.

Section Script.

Variable JSON_parse : Value -> nat -> Outcome Value * nat.

Fixpoint strings_of (vs : list Value) : option (list string) :=
  match vs with
  | [] => Some []
  | VStr t :: rest =>
      match strings_of rest with
      | Some ts => Some (t :: ts)
      | None => None
      end
  | _ :: _ => None
  end.

(** Modelled from the spec: the worker script [./worker] that [Task.start]
    loads, whose source is not at hand.  Following the contract of the
    isolated worker channel, it rebuilds a function from [body] and the
    parameter names of [func], calls it with the one argument
    [{state: state}], and reports the serialized return value as its one
    message, or whatever the call throws as its one error; without [func]
    nothing is called and the message is empty.  [n] is the first free
    object identity of the worker.  The result is [None] when the function
    is outside of the fragment of [MiniJs]. *)
Definition run_func (func state : Value) (n : nat) : option Response :=
  match func with
  | VObj _ fields =>
      match get_field "body" fields, get_field "args" fields with
      | VStr body, VArr _ names =>
          match strings_of names with
          | Some params =>
              match MiniJs.call params body [VObj n [("state", state)]] with
              | Some (MiniJs.Returns v) => Some (Success (Json.JSON_stringify v))
              | Some (MiniJs.Throws e) => Some (Failure e)
              | None => None
              end
          | None => None
          end
      | _, _ => None
      end
  | VUndefined | VNull => Some (Success VUndefined)
  | _ => None
  end.

(** Modelled from the spec: the worker's answer to the message text that
    [Task.start] posts, [{func: {body, args} | absent, state}] serialized. *)
Definition worker_script (message : Value) : option Response :=
  match JSON_parse message 0 with
  | (Return (VObj _ fields), n) =>
      run_func (get_field "func" fields) (get_field "state" fields) n
  | _ => None
  end.

(** The worker behind channel [w] answers the one message posted to it and
    the runtime delivers the answer. *)
Definition answer (w : nat) (s : Sys) : option (Outcome unit * Sys) :=
  match nth_error (channels s) w with
  | Some c =>
      match posted c with
      | [message] =>
          match worker_script message with
          | Some r => Some (deliver JSON_parse w r s)
          | None => None
          end
      | _ => None
      end
  | None => None
  end.

(** [startNew(func, state)] on a fresh system, followed by the answer of
    the worker when a message was posted: the promise and the final
    state.  [n] is the first identity not taken by [func] and [state]. *)
Definition startNew_run (n : nat) (func state : Value) : option (nat * Sys) :=
  match startNew func state (boot n) with
  | (Return p, s) =>
      match nth_error (channels s) 0 with
      | Some {| alive := true; posted := [_] |} =>
          match answer 0 s with
          | Some (Return _, s') => Some (p, s')
          | _ => None
          end
      | _ => Some (p, s)
      end
  | (Throw _, _) => None
  end.

End Script.

(** [JSON.parse] on the JSON texts that [Json.parse] reads; the argument is
    converted to a string first. *)
Definition JSON_parse (text : Value) (n : nat) : Outcome Value * nat :=
  match Json.parse (Json.to_string text) n with
  | Some (v, n') => (Return v, n')
  | None => (Throw (VError n "SyntaxError" "Unexpected token in JSON"), S n)
  end.

End Worker.

(** * The functions and states of the scenarios *)

Module Scenario.
Import Js Tasks.

(** The source text of the arrow function [ctx => 1000 + 200*ctx.state + 7]
    and of the function expression an ES5 compiler turns it into. *)
Definition arrow_src : string := "ctx => 1000 + 200*ctx.state + 7".
Definition arrow_es5_src : string :=
  "function (ctx) { return 1000 + 200 * ctx.state + 7; }".

Definition increment_src : string := "function(ctx){ return ctx.state + 1; }".

Definition default_comma_src : string :=
  "function (a = f(1,2), b) { return 0; }".

Definition boom_src : string := "function (ctx) { throw 'boom'; }".

(** The context object [{state: 5}]. *)
Definition ctx5 : Value := VObj 0 [("state", VNum 5)].

(** A task whose [start(1)] is pending: the status is [Running], promise 0
    is pending and channel 0 has received the message. *)
Definition pending_task : Sys := snd (startNew VNull (VNum 1) (boot 0)).

(** The settlement a run ends with. *)
Definition outcome_of (r : option (nat * Sys)) : option Settlement :=
  match r with
  | Some (p, s) => Some (promise_state p s)
  | None => None
  end.

Definition final_of (r : option (nat * Sys)) : option Sys :=
  match r with
  | Some (_, s) => Some s
  | None => None
  end.

(** [startNew(func, 30)] with the function of source text [src], up to the
    answer of the worker. *)
Definition run30 (src : string) : option (nat * Sys) :=
  Worker.startNew_run Worker.JSON_parse 1 (VFunc 0 src) (VNum 30).

End Scenario.

(** * Notions for the properties of the decomposer and of task runs *)

Module Shapes.
Import JsString.

(** Every character of [s] satisfies [p]. *)
Fixpoint all_chars (p : ascii -> bool) (s : string) : bool :=
  match s with
  | EmptyString => true
  | String c r => p c && all_chars p r
  end.

(** [c] is none of the characters of [chars]. *)
Definition none_of (chars : string) (c : ascii) : bool :=
  negb (existsb (Ascii.eqb c) (list_ascii_of_string chars)).

(** The characters of [s] that satisfy [p], in order. *)
Fixpoint keep (p : ascii -> bool) (s : string) : string :=
  match s with
  | EmptyString => EmptyString
  | String c r => if p c then String c (keep p r) else keep p r
  end.

(** [s] without its white space. *)
Definition squeeze (s : string) : string :=
  keep (fun c => negb (is_space c)) s.

(** A declared parameter: its name and, if any, the text of its default
    value. *)
Definition Param : Type := string * option string.

(** The parameter as it stands in a parameter list without white space. *)
Definition render (p : Param) : string :=
  match p with
  | (name, None) => name
  | (name, Some default) => name ++ "=" ++ default
  end.

(** A parameter the extraction can read: the name is not empty and holds
    neither [,] nor [=]; a default is not empty and holds no [,]. *)
Definition readable (p : Param) : bool :=
  let (name, default) := p in
  nonempty name && all_chars (none_of ",=") name &&
  match default with
  | Some d => nonempty d && all_chars (none_of ",") d
  | None => true
  end.

End Shapes.

Module Run.
Import Js Tasks.

(** What happens to a task after its construction: [start] is called, or
    the runtime calls a handler that some [start] call has put on a worker,
    [worker.onmessage] with [msg.data] or [worker.onerror] with the error.
    The handler arguments [w], [p] and [state] are what its closure holds. *)
Inductive Action : Type :=
| Start (state : Value)
| OnMessage (w p : nat) (state data : Value)
| OnError (p : nat) (state err : Value).

Section Runs.

Variable JSON_parse : Value -> nat -> Outcome Value * nat.

(** The state an action leaves, also when the handler throws. *)
Definition perform (a : Action) (s : Sys) : Sys :=
  match a with
  | Start state => snd (start state s)
  | OnMessage w p state data =>
      snd (worker_onmessage JSON_parse w p state data s)
  | OnError p state err => snd (worker_onerror p state err s)
  end.

Definition run (actions : list Action) (s : Sys) : Sys :=
  fold_left (fun s a => perform a s) actions s.

End Runs.

Fixpoint last_opt {A : Type} (l : list A) : option A :=
  match l with
  | [] => None
  | [x] => Some x
  | _ :: r => last_opt r
  end.

(** The value an observer of property [name] has seen last. *)
Definition observed (name : string) (l : list (string * Value)) : option Value :=
  last_opt (notified name l).

(** The observers of a task are up to date: the last [status] notification
    carries the status of the task (none was raised while the status is
    still unset), and the last [error] notification carries its error (none
    was raised while the error is still [undefined]). *)
Definition sync (t : Task) (l : list (string * Value)) : Prop :=
  observed "status" l = option_map status_value (_status t) /\
  match observed "error" l with
  | Some v => v = _error t
  | None => _error t = VUndefined
  end.

Definition in_sync (s : Sys) : Prop := sync (me s) (notifications s).

(** No channel has been sent more than one message. *)
Definition single_use (s : Sys) : Prop :=
  Forall (fun c => length (posted c) <= 1) (channels s).

End Run.

(** * Properties *)

Module TaskFacts.
Import Js Tasks.

Local Open Scope list_scope.

Arguments Decomposer.extract_body : simpl never.
Arguments Decomposer.extract_args : simpl never.
Arguments Json.to_string : simpl never.
Arguments Json.JSON_stringify : simpl never.
Arguments conflict_message : simpl never.

Ltac run :=
  unfold worker_onmessage, worker_onerror, worker_onmessage_js, startNew,
    newTask, constructor, start, completed, decompose_FUNC, json_parse,
    updateStatus, updateError, new_Promise, new_Error, throw_TypeError,
    reject, resolve, settle, new_Worker, set_handlers, postMessage, terminate,
    bind, ret, throw, gets, modify, try_catch, fresh, notifyPropertyChange.

Lemma update_nth_last {A} (f : A -> A) (l : list A) (x : A) :
  update_nth (length l) f (l ++ [x]) = l ++ [f x].
Proof. induction l as [|a l IH]; simpl; [reflexivity | now rewrite IH]. Qed.

Lemma nth_last {A} (l : list A) (x d : A) : nth (length l) (l ++ [x]) d = x.
Proof. induction l as [|a l IH]; simpl; [reflexivity | exact IH]. Qed.

Lemma nth_update_nth {A} (f : A -> A) (l : list A) (i : nat) (d : A) :
  i < length l -> nth i (update_nth i f l) d = f (nth i l d).
Proof.
  revert i. induction l as [|a l IH]; intros [|i] H; simpl in *; try lia.
  - reflexivity.
  - apply IH. lia.
Qed.

Lemma nth_error_update_nth {A} (f : A -> A) (l : list A) (i : nat) :
  nth_error (update_nth i f l) i = option_map f (nth_error l i).
Proof.
  revert i. induction l as [|a l IH]; intros [|i]; simpl; try reflexivity.
  apply IH.
Qed.

Ltac case_if :=
  match goal with
  | |- context [if ?b then _ else _] =>
      let E := fresh "E" in destruct b eqn:E
  end.

Ltac crunch :=
  repeat (cbn in *; rewrite ?update_nth_last; try case_if);
  rewrite <- ?app_assoc; cbn; rewrite ?app_nil_r.

Ltac finish := repeat split; try reflexivity; try congruence.

Lemma status_code_inj (a b : TaskStatus) :
  status_code a = status_code b -> a = b.
Proof. destruct a, b; simpl; intro H; try reflexivity; discriminate H. Qed.

Lemma status_field_differs (t : Task) (v : TaskStatus) :
  strict_neq (status_value v) (status_field t) = true <-> _status t <> Some v.
Proof.
  unfold status_field, strict_neq.
  destruct (_status t) as [x|]; simpl.
  - rewrite negb_true_iff. split; intro H.
    + intro E. inversion E; subst. rewrite Z.eqb_refl in H. discriminate.
    + destruct (Z.eqb_spec (status_code v) (status_code x)) as [E|E]; [|reflexivity].
      apply status_code_inj in E. subst. exfalso. apply H. reflexivity.
  - split; [discriminate | reflexivity].
Qed.

Lemma updateStatus_changed (s : Sys) (v : TaskStatus) :
  status s <> Some v ->
  updateStatus v s =
    (Return true,
     set_notifications (notifications s ++ [("status", status_value v)])
       (set_me (with_status v (me s)) s)).
Proof.
  intro H. unfold updateStatus. run.
  apply (status_field_differs (me s) v) in H. rewrite H. reflexivity.
Qed.

Lemma updateStatus_same (s : Sys) (v : TaskStatus) :
  status s = Some v -> updateStatus v s = (Return false, s).
Proof.
  intro H. unfold updateStatus. run.
  destruct (strict_neq (status_value v) (status_field (me s))) eqn:E; [|reflexivity].
  apply status_field_differs in E. contradiction.
Qed.

Lemma updateError_changed (s : Sys) (v : Value) :
  strict_neq v (error s) = true ->
  updateError v s =
    (Return true,
     set_notifications (notifications s ++ [("error", v)])
       (set_me (with_error v (me s)) s)).
Proof. intro H. unfold updateError. run. rewrite H. reflexivity. Qed.

Lemma updateError_same (s : Sys) (v : Value) :
  strict_neq v (error s) = false -> updateError v s = (Return false, s).
Proof. intro H. unfold updateError. run. rewrite H. reflexivity. Qed.

(** The guard of [start] rejects: nothing but the promise, the error field
    and the identity counter moves. *)
Lemma start_conflict (s : Sys) (state : Value) :
  may_start (status s) = false ->
  let err := VError (next_ref s) "Error" (conflict_message (status s)) in
  let s' := snd (start state s) in
  fst (start state s) = Return (length (promises s)) /\
  promises s' = promises s ++ [Rejected (ResultError err state)] /\
  me s' = with_error (stored err (error s)) (me s) /\
  channels s' = channels s /\
  notifications s' = notifications s ++ error_notice err (error s).
Proof.
  destruct s as [[f e st] n wf ch pr nt]. unfold status, error. simpl.
  intro H. run. cbn. rewrite H. cbn. rewrite update_nth_last.
  unfold stored, error_notice.
  destruct (strict_neq (VError n "Error" (conflict_message st)) e); cbn;
    rewrite ?app_nil_r; repeat split; reflexivity.
Qed.

(** [start] passes the guard but something throws before the message is
    posted: [new Worker] itself, or the index into the failed match. *)
Lemma start_faults (s : Sys) (state : Value) :
  may_start (status s) = true ->
  (worker_fault s <> None \/
   (truthy (func s) = true /\
    Decomposer.extract_body (Json.to_string (func s)) = None)) ->
  let e := match worker_fault s with
           | Some e => e
           | None => VError (S (next_ref s)) "TypeError" null_index_message
           end in
  let s' := snd (start state s) in
  fst (start state s) = Return (length (promises s)) /\
  promises s' = promises s ++ [verdict e VUndefined state] /\
  me s' = with_error (stored e (error s)) (with_status Faulted (me s)) /\
  channels s' =
    channels s ++
    match worker_fault s with
    | Some _ => []
    | None => [{| alive := true;
                  handlers := Some (length (promises s), state);
                  posted := [] |}]
    end /\
  notifications s' =
    notifications s ++
    [("status", status_value WaitingToRun); ("status", status_value Faulted)]
    ++ error_notice e (error s).
Proof.
  destruct s as [[f e st] n wf ch pr nt]. unfold status, error, func. simpl.
  intros H C. run. unfold verdict, stored, error_notice.
  destruct st as [[]|]; try discriminate H;
    (destruct wf as [e0|];
     [ crunch; finish
     | destruct C as [C|[Hf Hb]]; [congruence|];
       cbn; rewrite Hf; cbn; rewrite Hb; crunch; finish ]).
Qed.

(** [start] passes the guard and posts the message. *)
Lemma start_dispatches (s : Sys) (state : Value) :
  may_start (status s) = true ->
  worker_fault s = None ->
  (truthy (func s) = false \/
   Decomposer.extract_body (Json.to_string (func s)) <> None) ->
  let s' := snd (start state s) in
  let message :=
    Json.JSON_stringify
      (VObj (message_ref s) [("func", func_descriptor s); ("state", state)]) in
  fst (start state s) = Return (length (promises s)) /\
  promises s' = promises s ++ [Pending] /\
  me s' = with_status Running (me s) /\
  channels s' =
    channels s ++ [{| alive := true;
                      handlers := Some (length (promises s), state);
                      posted := [message] |}] /\
  notifications s' =
    notifications s ++
    [("status", status_value WaitingToRun); ("status", status_value Running)].
Proof.
  destruct s as [[f e st] n wf ch pr nt].
  unfold status, error, func, func_descriptor, message_ref. simpl.
  intros H Hw C. subst wf. run.
  destruct st as [[]|]; try discriminate H;
    (destruct (truthy f) eqn:Hf;
     [ destruct C as [C|C]; [discriminate|];
       destruct (Decomposer.extract_body (Json.to_string f)) as [b|] eqn:Hb;
         [|congruence];
       cbn; rewrite Hf; cbn; rewrite Hb; crunch; finish
     | cbn; rewrite Hf; crunch; finish ]).
Qed.

(** [worker.onerror]: the channel is left as it is. *)
Lemma onerror_effect (s : Sys) (p : nat) (state err : Value) :
  let s' := snd (worker_onerror p state err s) in
  fst (worker_onerror p state err s) = Return tt /\
  me s' = with_error (stored err (error s)) (with_status Faulted (me s)) /\
  promises s' =
    update_nth p (settled (verdict err VUndefined state)) (promises s) /\
  channels s' = channels s /\
  notifications s' =
    notifications s ++ status_notice Faulted (status s)
    ++ error_notice err (error s).
Proof.
  destruct s as [[f e st] n wf ch pr nt]. run.
  unfold verdict, stored, error_notice, status_notice, status, error.
  destruct st as [[]|]; crunch; finish.
Qed.

Section HandlerFacts.

Variable JSON_parse : Value -> nat -> Outcome Value * nat.

(** [worker.onmessage] when no parse fails. *)
Lemma onmessage_effect (s : Sys) (w p : nat) (state data v : Value) :
  payload_result JSON_parse data (next_ref s) = Return v ->
  let s' := snd (worker_onmessage JSON_parse w p state data s) in
  fst (worker_onmessage JSON_parse w p state data s) = Return tt /\
  me s' = with_error (stored VNull (error s)) (with_status RanToCompletion (me s)) /\
  promises s' =
    update_nth p (settled (Resolved (ResultData v state))) (promises s) /\
  channels s' = update_nth w terminated (channels s) /\
  notifications s' =
    notifications s ++ status_notice RanToCompletion (status s)
    ++ error_notice VNull (error s).
Proof.
  destruct s as [[f e st] n wf ch pr nt]. unfold payload_result. run.
  unfold stored, error_notice, status_notice, status, error, terminated. cbn.
  intro H. destruct (truthy data) eqn:T.
  - destruct (JSON_parse data n) as [r n'] eqn:P. cbn in H. subst r.
    destruct st as [[]|]; cbn; rewrite ?T, ?P; crunch; finish.
  - injection H as <-. destruct st as [[]|]; cbn; rewrite ?T; crunch; finish.
Qed.

(** [worker.onmessage] when [JSON.parse] throws: the handler throws after
    the channel has been terminated, and nothing else has happened. *)
Lemma onmessage_throws (s : Sys) (w p : nat) (state data e : Value) :
  payload_result JSON_parse data (next_ref s) = Throw e ->
  let s' := snd (worker_onmessage JSON_parse w p state data s) in
  fst (worker_onmessage JSON_parse w p state data s) = Throw e /\
  me s' = me s /\
  promises s' = promises s /\
  channels s' = update_nth w terminated (channels s) /\
  notifications s' = notifications s.
Proof.
  destruct s as [[f e0 st] n wf ch pr nt]. unfold payload_result. run.
  unfold terminated. cbn. intro H. destruct (truthy data) eqn:T; [|discriminate H].
  destruct (JSON_parse data n) as [r n'] eqn:P. cbn in H. subst r.
  cbn. rewrite ?T, ?P. cbn. finish.
Qed.

End HandlerFacts.

End TaskFacts.

(** * The claims of the specification *)

Module Claims.
Import Js Tasks TaskFacts Scenario.

Local Open Scope list_scope.

Lemma may_start_pending (st : TaskStatus) :
  st = WaitingToRun \/ st = Running -> may_start (Some st) = false.
Proof. intros [-> | ->]; reflexivity. Qed.

(** C1: a [start(state)] call on a task whose status is [WaitingToRun] or
    [Running] returns a promise that is already rejected with the
    state-conflict error in the envelope [{error, state}]; the status is
    left as it was and no worker channel is created. *)
Theorem start_rejects_while_pending (s : Sys) (state : Value) (st : TaskStatus) :
  status s = Some st ->
  st = WaitingToRun \/ st = Running ->
  let p := length (promises s) in
  let err :=
    VError (next_ref s) "Error"
      ("Cannot start while in '" ++ status_name st ++ "' state!")%string in
  fst (start state s) = Return p /\
  promise_state p (snd (start state s)) = Rejected (ResultError err state) /\
  status (snd (start state s)) = Some st /\
  channels (snd (start state s)) = channels s.
Proof.
  intros Hst Hp p err.
  assert (G : may_start (status s) = false)
    by (rewrite Hst; apply may_start_pending; exact Hp).
  destruct (start_conflict s state G) as (R & P & T & C & _).
  repeat split.
  - exact R.
  - unfold promise_state. rewrite P. subst p. rewrite nth_last.
    subst err. rewrite Hst. reflexivity.
  - unfold status. rewrite T. exact Hst.
  - exact C.
Qed.

(** The second [start] of the pending task of the scenarios. *)
Lemma start_rejects_while_pending_witness :
  fst (start (VNum 2) pending_task) = Return 1 /\
  promise_state 1 (snd (start (VNum 2) pending_task))
  = Rejected (ResultError
      (VError 1 "Error" "Cannot start while in 'Running' state!") (VNum 2)) /\
  status (snd (start (VNum 2) pending_task)) = Some Running /\
  channels (snd (start (VNum 2) pending_task)) = channels pending_task.
Proof.
  exact (start_rejects_while_pending pending_task (VNum 2) Running
           eq_refl (or_intror eq_refl)).
Defined.

(** C2, as stated, fails: a second [start] on a task whose status is
    [Running] sets the error property to the state-conflict error, a
    present value that differs from the one stored, while the status stays
    [Running] before and after and never becomes [Faulted]. *)
Lemma error_set_without_fault :
  let s := pending_task in
  let s' := snd (start (VNum 2) s) in
  status s = Some Running /\
  error s = VUndefined /\
  error s' = VError 1 "Error" "Cannot start while in 'Running' state!" /\
  strict_neq (error s') (error s) = true /\
  isNullOrUndefined (error s') = false /\
  status s' = Some Running.
Proof. cbv zeta. repeat split; reflexivity. Qed.

Lemma stored_null (old : Value) : stored VNull old = VNull.
Proof. unfold stored. destruct old; reflexivity. Qed.

Section ErrorProperty.

Variable JSON_parse : Value -> nat -> Outcome Value * nat.

(** C2, amended: the error property is written by [completed] only, with
    the error of the call, whenever a [start] call ends.  A call refused by
    the guard stores the state-conflict error and leaves the status alone; a
    call that passes the guard either posts its message, reaching [Running]
    with the error property untouched, or fails, reaching [Faulted] with the
    thrown value stored; an error response reaches [Faulted] with the
    reported error stored; a message response reaches [RanToCompletion] with
    the error property cleared to [null]; a message whose parse throws and a
    status update leave the error property as it is.  Storing goes through
    [updateError], which keeps the old value when the new one is [===] to
    it. *)
Theorem error_written_by_completed (s : Sys) (state : Value) :
  (may_start (status s) = false ->
     let err := VError (next_ref s) "Error" (conflict_message (status s)) in
     error (snd (start state s)) = stored err (error s) /\
     status (snd (start state s)) = status s) /\
  (may_start (status s) = true ->
     (status (snd (start state s)) = Some Running /\
      error (snd (start state s)) = error s) \/
     (status (snd (start state s)) = Some Faulted /\
      exists e, error (snd (start state s)) = stored e (error s) /\
                promise_state (length (promises s)) (snd (start state s))
                = verdict e VUndefined state)) /\
  (forall p err,
     status (snd (worker_onerror p state err s)) = Some Faulted /\
     error (snd (worker_onerror p state err s)) = stored err (error s)) /\
  (forall w p data v,
     payload_result JSON_parse data (next_ref s) = Return v ->
     status (snd (worker_onmessage JSON_parse w p state data s))
     = Some RanToCompletion /\
     error (snd (worker_onmessage JSON_parse w p state data s)) = VNull) /\
  (forall w p data e,
     payload_result JSON_parse data (next_ref s) = Throw e ->
     status (snd (worker_onmessage JSON_parse w p state data s)) = status s /\
     error (snd (worker_onmessage JSON_parse w p state data s)) = error s) /\
  (forall v, error (snd (updateStatus v s)) = error s).
Proof.
  repeat split.
  - destruct (start_conflict s state H) as (_ & _ & T & _). unfold error.
    rewrite T. reflexivity.
  - destruct (start_conflict s state H) as (_ & _ & T & _). unfold status.
    rewrite T. reflexivity.
  - intro G.
    destruct (worker_fault s) as [e0|] eqn:W.
    + right. destruct (start_faults s state G) as (_ & P & T & _).
      { left. rewrite W. discriminate. }
      rewrite W in *. split; [unfold status; rewrite T; reflexivity|].
      exists e0. split; [unfold error at 1; rewrite T; reflexivity|].
      unfold promise_state. rewrite P. apply nth_last.
    + destruct (truthy (func s)) eqn:F;
        [destruct (Decomposer.extract_body (Json.to_string (func s))) as [b|] eqn:B|].
      * left. destruct (start_dispatches s state G W) as (_ & _ & T & _).
        { right. rewrite B. discriminate. }
        unfold status, error. rewrite T. split; reflexivity.
      * right. destruct (start_faults s state G) as (_ & P & T & _).
        { right. split; assumption. }
        rewrite W in *. split; [unfold status; rewrite T; reflexivity|].
        eexists. split; [unfold error at 1; rewrite T; reflexivity|].
        unfold promise_state. rewrite P. apply nth_last.
      * left. destruct (start_dispatches s state G W) as (_ & _ & T & _).
        { left. exact F. }
        unfold status, error. rewrite T. split; reflexivity.
  - destruct (onerror_effect s p state err) as (_ & T & _). unfold status.
    rewrite T. reflexivity.
  - destruct (onerror_effect s p state err) as (_ & T & _). unfold error at 1.
    rewrite T. reflexivity.
  - destruct (onmessage_effect JSON_parse s w p state data v H) as (_ & T & _).
    unfold status. rewrite T. reflexivity.
  - destruct (onmessage_effect JSON_parse s w p state data v H) as (_ & T & _).
    unfold error at 1. rewrite T. cbn. apply stored_null.
  - destruct (onmessage_throws JSON_parse s w p state data e H) as (_ & T & _).
    unfold status. rewrite T. reflexivity.
  - destruct (onmessage_throws JSON_parse s w p state data e H) as (_ & T & _).
    unfold error. rewrite T. reflexivity.
  - intro v. unfold error.
    destruct (strict_neq (status_value v) (status_field (me s))) eqn:E.
    + apply status_field_differs in E. rewrite (updateStatus_changed s v E).
      reflexivity.
    + assert (status s = Some v) as E'.
      { destruct (status s) as [x|] eqn:S.
        - unfold status in S. unfold status_field, strict_neq in E.
          rewrite S in E. cbn in E. apply negb_false_iff, Z.eqb_eq in E.
          apply status_code_inj in E. now subst.
        - unfold status in S. unfold status_field, strict_neq in E.
          rewrite S in E. discriminate E. }
      rewrite (updateStatus_same s v E'). reflexivity.
Qed.

End ErrorProperty.

(** The guard case at the pending task of the scenarios. *)
Lemma error_written_by_completed_witness :
  error (snd (start (VNum 2) pending_task))
  = stored (VError 1 "Error" (conflict_message (Some Running))) VUndefined /\
  status (snd (start (VNum 2) pending_task)) = Some Running.
Proof.
  exact (proj1 (error_written_by_completed Worker.JSON_parse pending_task (VNum 2))
           eq_refl).
Defined.

Lemma notified_app (name : string) (a b : list (string * Value)) :
  notified name (a ++ b) = notified name a ++ notified name b.
Proof. unfold notified. rewrite filter_app, map_app. reflexivity. Qed.

Lemma notified_status_error_notice (e old : Value) :
  notified "status" (error_notice e old) = [].
Proof. unfold error_notice. destruct (strict_neq e old); reflexivity. Qed.

Lemma status_notice_cases (v : TaskStatus) (old : option TaskStatus) :
  (old = Some v /\ status_notice v old = []) \/
  (old <> Some v /\ status_notice v old = [("status", status_value v)]).
Proof.
  destruct (strict_neq (status_value v)
              (status_field {| _FUNC := VNull; _error := VNull; _status := old |}))
    eqn:E.
  - right. split; [apply (proj1 (status_field_differs _ v) E)|].
    unfold status_notice. unfold status_field in E. cbn in E. rewrite E.
    reflexivity.
  - left. split.
    + destruct old as [x|]; [|discriminate E].
      unfold status_field, strict_neq in E. cbn in E.
      apply negb_false_iff, Z.eqb_eq, status_code_inj in E. now subst.
    + unfold status_notice. unfold status_field in E. cbn in E. rewrite E.
      reflexivity.
Qed.

Lemma absent_iff (v : Value) : absent v <-> isNullOrUndefined v = true.
Proof.
  unfold absent. split.
  - intros [-> | ->]; reflexivity.
  - destruct v; intro H; try discriminate H; [left | right]; reflexivity.
Qed.

Lemma invocable_iff (v : Value) :
  invocable v <-> String.eqb (typeof v) "function" = true.
Proof. unfold invocable. symmetry. apply String.eqb_eq. Qed.

(** [start] never writes [_FUNC], whatever path it takes. *)
Lemma start_keeps_func (s : Sys) (state : Value) :
  func (snd (start state s)) = func s.
Proof.
  unfold func at 1.
  destruct (may_start (status s)) eqn:G.
  - destruct (worker_fault s) as [e0|] eqn:W.
    + destruct (start_faults s state G) as (_ & _ & T & _).
      { left. rewrite W. discriminate. }
      rewrite T. reflexivity.
    + destruct (truthy (func s)) eqn:F;
        [destruct (Decomposer.extract_body (Json.to_string (func s))) as [b|] eqn:B|].
      * destruct (start_dispatches s state G W) as (_ & _ & T & _).
        { right. rewrite B. discriminate. }
        rewrite T. reflexivity.
      * destruct (start_faults s state G) as (_ & _ & T & _).
        { right. split; assumption. }
        rewrite T. reflexivity.
      * destruct (start_dispatches s state G W) as (_ & _ & T & _).
        { left. exact F. }
        rewrite T. reflexivity.
  - destruct (start_conflict s state G) as (_ & _ & T & _). rewrite T.
    reflexivity.
Qed.

(** C7: [updateStatus] and [updateError] raise their notification and
    return [true] exactly when the new value differs ([!==]) from the stored
    one, and otherwise change nothing and return [false].  Hence a [start]
    call that passes the guard raises exactly one status notification for
    each status it enters ([WaitingToRun], then [Running] or [Faulted]), and
    a response raises one for [Faulted] or [RanToCompletion] unless that is
    the stored status already. *)
Theorem update_notifies_iff_changed (s : Sys) :
  (forall v : TaskStatus,
     (status s <> Some v /\
      updateStatus v s =
        (Return true,
         set_notifications (notifications s ++ [("status", status_value v)])
           (set_me (with_status v (me s)) s))) \/
     (status s = Some v /\ updateStatus v s = (Return false, s))) /\
  (forall e : Value,
     (strict_neq e (error s) = true /\
      updateError e s =
        (Return true,
         set_notifications (notifications s ++ [("error", e)])
           (set_me (with_error e (me s)) s))) \/
     (strict_neq e (error s) = false /\ updateError e s = (Return false, s))) /\
  (forall state,
     may_start (status s) = true ->
     exists entered,
       (entered = [WaitingToRun; Running] \/ entered = [WaitingToRun; Faulted]) /\
       notified "status" (notifications (snd (start state s)))
       = notified "status" (notifications s) ++ map status_value entered /\
       status (snd (start state s)) = Some (last entered Created)) /\
  (forall p state err,
     notified "status" (notifications (snd (worker_onerror p state err s)))
     = notified "status" (notifications s)
       ++ notified "status" (status_notice Faulted (status s)) /\
     ((status s = Some Faulted /\ status_notice Faulted (status s) = []) \/
      (status s <> Some Faulted /\
       status_notice Faulted (status s) = [("status", status_value Faulted)]))) /\
  (forall JSON_parse w p state data v,
     payload_result JSON_parse data (next_ref s) = Return v ->
     notified "status"
       (notifications (snd (worker_onmessage JSON_parse w p state data s)))
     = notified "status" (notifications s)
       ++ notified "status" (status_notice RanToCompletion (status s)) /\
     ((status s = Some RanToCompletion /\
       status_notice RanToCompletion (status s) = []) \/
      (status s <> Some RanToCompletion /\
       status_notice RanToCompletion (status s)
       = [("status", status_value RanToCompletion)]))).
Proof.
  repeat split.
  - intro v. destruct (strict_neq (status_value v) (status_field (me s))) eqn:E.
    + left. apply status_field_differs in E. split; [exact E|].
      apply updateStatus_changed. exact E.
    + right.
      assert (status s = Some v) as E'.
      { destruct (status s) as [x|] eqn:S; unfold status in S;
          unfold status_field, strict_neq in E; rewrite S in E.
        - cbn in E. apply negb_false_iff, Z.eqb_eq, status_code_inj in E.
          now subst.
        - discriminate E. }
      split; [exact E'|]. apply updateStatus_same. exact E'.
  - intro e. destruct (strict_neq e (error s)) eqn:E.
    + left. split; [reflexivity|]. apply updateError_changed. exact E.
    + right. split; [reflexivity|]. apply updateError_same. exact E.
  - intros state G.
    destruct (worker_fault s) as [e0|] eqn:W.
    + destruct (start_faults s state G) as (_ & _ & T & _ & N).
      { left. rewrite W. discriminate. }
      exists [WaitingToRun; Faulted]. split; [right; reflexivity|].
      rewrite N, !notified_app, notified_status_error_notice, app_nil_r.
      unfold status. rewrite T. split; reflexivity.
    + destruct (truthy (func s)) eqn:F;
        [destruct (Decomposer.extract_body (Json.to_string (func s))) as [b|] eqn:B|].
      * destruct (start_dispatches s state G W) as (_ & _ & T & _ & N).
        { right. rewrite B. discriminate. }
        exists [WaitingToRun; Running]. split; [left; reflexivity|].
        rewrite N, notified_app. unfold status. rewrite T. split; reflexivity.
      * destruct (start_faults s state G) as (_ & _ & T & _ & N).
        { right. split; assumption. }
        exists [WaitingToRun; Faulted]. split; [right; reflexivity|].
        rewrite N, !notified_app, notified_status_error_notice, app_nil_r.
        unfold status. rewrite T. split; reflexivity.
      * destruct (start_dispatches s state G W) as (_ & _ & T & _ & N).
        { left. exact F. }
        exists [WaitingToRun; Running]. split; [left; reflexivity|].
        rewrite N, notified_app. unfold status. rewrite T. split; reflexivity.
  - destruct (onerror_effect s p state err) as (_ & _ & _ & _ & N).
    rewrite N, !notified_app, notified_status_error_notice, app_nil_r.
    reflexivity.
  - apply status_notice_cases.
  - destruct (onmessage_effect JSON_parse s w p state data v H)
      as (_ & _ & _ & _ & N).
    rewrite N, !notified_app, notified_status_error_notice, app_nil_r.
    reflexivity.
  - apply status_notice_cases.
Qed.

(** The first [start] of a task made without function. *)
Lemma update_notifies_iff_changed_witness :
  exists entered,
    (entered = [WaitingToRun; Running] \/ entered = [WaitingToRun; Faulted]) /\
    notified "status"
      (notifications (snd (start (VNum 30) (snd (newTask VNull (boot 0))))))
    = notified "status" (notifications (snd (newTask VNull (boot 0))))
      ++ map status_value entered /\
    status (snd (start (VNum 30) (snd (newTask VNull (boot 0)))))
    = Some (last entered Created).
Proof.
  exact (proj1 (proj2 (proj2
           (update_notifies_iff_changed (snd (newTask VNull (boot 0))))))
           (VNum 30) eq_refl).
Defined.

Lemma constructor_throws (f : Value) (s : Sys) :
  isNullOrUndefined f = false ->
  String.eqb (typeof f) "function" = false ->
  constructor f s = (Throw (VStr "'func' must be a function!"), s).
Proof. intros A I. run. rewrite A. cbn. rewrite I. reflexivity. Qed.

Lemma constructor_returns (f : Value) (s : Sys) :
  isNullOrUndefined f = true \/ String.eqb (typeof f) "function" = true ->
  let s' := snd (constructor f s) in
  fst (constructor f s) = Return tt /\
  me s' = with_status Created (with_FUNC f (me s)) /\
  channels s' = channels s /\
  promises s' = promises s /\
  notifications s' = notifications s ++ status_notice Created (status s).
Proof.
  destruct s as [[f0 e st] n wf ch pr nt]. unfold status_notice, status.
  intros [A | I]; run; cbn.
  - rewrite A. destruct st as [[]|]; crunch; finish.
  - rewrite I. destruct (isNullOrUndefined f);
      destruct st as [[]|]; crunch; finish.
Qed.

(** C8: the [Task] constructor and [newTask] throw, at once, exactly when
    the supplied value is present (neither [null] nor [undefined]) and not
    invocable; nothing is notified and no status is set then.  With an
    invocable or an absent value construction returns, the value is stored
    in [_FUNC], the status is [Created], no channel or promise exists that
    did not before, and no later operation ([start], the two responses)
    changes [_FUNC]. *)
Theorem construction_throws_iff_not_invocable (f : Value) (s : Sys) :
  ((exists e s', newTask f s = (Throw e, s')) <->
   (~ absent f /\ ~ invocable f)) /\
  ((exists e s', constructor f s = (Throw e, s')) <->
   (~ absent f /\ ~ invocable f)) /\
  (~ absent f -> ~ invocable f ->
   newTask f s = (Throw (VStr "'func' must be a function!"), set_me blank s)) /\
  (absent f \/ invocable f ->
   fst (newTask f s) = Return tt /\
   func (snd (newTask f s)) = f /\
   status (snd (newTask f s)) = Some Created /\
   channels (snd (newTask f s)) = channels s /\
   promises (snd (newTask f s)) = promises s) /\
  (forall state, func (snd (start state s)) = func s) /\
  (forall p state err, func (snd (worker_onerror p state err s)) = func s) /\
  (forall JSON_parse w p state data,
     func (snd (worker_onmessage JSON_parse w p state data s)) = func s).
Proof.
  assert (T : ~ absent f -> ~ invocable f ->
              isNullOrUndefined f = false /\
              String.eqb (typeof f) "function" = false).
  { intros A I. split.
    - destruct (isNullOrUndefined f) eqn:E; [|reflexivity].
      exfalso. apply A, absent_iff, E.
    - destruct (String.eqb (typeof f) "function") eqn:E; [|reflexivity].
      exfalso. apply I, invocable_iff, E. }
  assert (R : absent f \/ invocable f ->
              isNullOrUndefined f = true \/
              String.eqb (typeof f) "function" = true).
  { intros [A | I]; [left; apply absent_iff, A | right; apply invocable_iff, I]. }
  assert (D : (absent f \/ invocable f) \/ (~ absent f /\ ~ invocable f)).
  { destruct (isNullOrUndefined f) eqn:A.
    - left. left. apply absent_iff, A.
    - destruct (String.eqb (typeof f) "function") eqn:I.
      + left. right. apply invocable_iff, I.
      + right. split; intro H.
        * apply absent_iff in H. congruence.
        * apply invocable_iff in H. congruence. }
  assert (N : forall s0, newTask f s0 = constructor f (set_me blank s0)).
  { intro s0. reflexivity. }
  split; [|split; [|split; [|split; [|split; [|split]]]]].
  - split.
    + intros (e & s' & H). destruct D as [D | D]; [|exact D].
      rewrite N in H.
      destruct (constructor_returns f (set_me blank s) (R D)) as (Q & _).
      rewrite H in Q. discriminate Q.
    + intros (A & I). destruct (T A I) as (A' & I').
      eexists. eexists. rewrite N. apply constructor_throws; assumption.
  - split.
    + intros (e & s' & H). destruct D as [D | D]; [|exact D].
      destruct (constructor_returns f s (R D)) as (Q & _).
      rewrite H in Q. discriminate Q.
    + intros (A & I). destruct (T A I) as (A' & I').
      eexists. eexists. apply constructor_throws; assumption.
  - intros A I. destruct (T A I) as (A' & I'). rewrite N.
    apply constructor_throws; assumption.
  - intro H. rewrite N.
    destruct (constructor_returns f (set_me blank s) (R H))
      as (Q & M & C & P & _).
    unfold func, status. rewrite M, C, P. cbn.
    split; [exact Q|]. split; [reflexivity|]. split; [reflexivity|].
    split; reflexivity.
  - intro state. apply start_keeps_func.
  - intros p state err.
    destruct (onerror_effect s p state err) as (_ & M & _).
    unfold func at 1. rewrite M. reflexivity.
  - intros JSON_parse w p state data.
    destruct (payload_result JSON_parse data (next_ref s)) as [v|e] eqn:P.
    + destruct (onmessage_effect JSON_parse s w p state data v P) as (_ & M & _).
      unfold func at 1. rewrite M. reflexivity.
    + destruct (onmessage_throws JSON_parse s w p state data e P) as (_ & M & _).
      unfold func at 1. rewrite M. reflexivity.
Qed.

(** Construction from the number 3. *)
Lemma construction_throws_iff_not_invocable_witness :
  newTask (VNum 3) (boot 0)
  = (Throw (VStr "'func' must be a function!"), set_me blank (boot 0)).
Proof.
  refine (proj1 (proj2 (proj2
            (construction_throws_iff_not_invocable (VNum 3) (boot 0)))) _ _).
  - intros [H | H]; discriminate H.
  - intro H. discriminate H.
Defined.

(** C10: constructing a task raises exactly one property-change
    notification, for [status] with the value [Created] (0): the constructor
    sets the status of the new object, which is still [undefined], through
    [updateStatus].  The new task has status [Created] and no error. *)
Theorem construction_notifies_created (f : Value) (s : Sys) :
  absent f \/ invocable f ->
  notifications (snd (newTask f s))
  = notifications s ++ [("status", VNum 0)] /\
  status (snd (newTask f s)) = Some Created /\
  error (snd (newTask f s)) = VUndefined /\
  absent (error (snd (newTask f s))).
Proof.
  intro H.
  assert (R : isNullOrUndefined f = true \/
              String.eqb (typeof f) "function" = true).
  { destruct H as [A | I]; [left; apply absent_iff, A | right; apply invocable_iff, I]. }
  change (newTask f s) with (constructor f (set_me blank s)).
  destruct (constructor_returns f (set_me blank s) R) as (_ & M & _ & _ & N).
  unfold status, error. rewrite M, N. cbn.
  repeat split. left. reflexivity.
Qed.

(** Construction from a function on a fresh system. *)
Lemma construction_notifies_created_witness :
  notifications (snd (newTask (VFunc 0 increment_src) (boot 1)))
  = [("status", VNum 0)] /\
  status (snd (newTask (VFunc 0 increment_src) (boot 1))) = Some Created /\
  error (snd (newTask (VFunc 0 increment_src) (boot 1))) = VUndefined /\
  absent (error (snd (newTask (VFunc 0 increment_src) (boot 1)))).
Proof.
  exact (construction_notifies_created (VFunc 0 increment_src) (boot 1)
           (or_intror eq_refl)).
Defined.

Lemma channel_alive_terminated (w : nat) (s s' : Sys) :
  channels s' = update_nth w terminated (channels s) ->
  channel_alive w s' = false.
Proof.
  intro H. unfold channel_alive. rewrite H, nth_error_update_nth.
  destruct (nth_error (channels s) w); reflexivity.
Qed.

(** C3: the code terminates the channel in [worker.onmessage] only.  After
    a message response channel [w] is not alive; after an error response it
    is as alive as before.  So when the function of the task throws
    ['boom'], the promise is rejected with [{error: 'boom', state: 30}] and
    the channel that reported the error is still alive. *)
Theorem failure_response_leaves_channel_alive :
  (forall JSON_parse s w p state data,
     channel_alive w (snd (worker_onmessage JSON_parse w p state data s)) = false) /\
  (forall s w p state err,
     channel_alive w (snd (worker_onerror p state err s)) = channel_alive w s) /\
  outcome_of (run30 boom_src)
  = Some (Rejected (ResultError (VStr "boom") (VNum 30))) /\
  option_map status (final_of (run30 boom_src)) = Some (Some Faulted) /\
  option_map (channel_alive 0) (final_of (run30 boom_src)) = Some true.
Proof.
  split; [|split; [|split; [|split]]].
  - intros JSON_parse s w p state data.
    destruct (payload_result JSON_parse data (next_ref s)) as [v|e] eqn:P.
    + destruct (onmessage_effect JSON_parse s w p state data v P)
        as (_ & _ & _ & C & _).
      exact (channel_alive_terminated w s _ C).
    + destruct (onmessage_throws JSON_parse s w p state data e P)
        as (_ & _ & _ & C & _).
      exact (channel_alive_terminated w s _ C).
  - intros s w p state err.
    destruct (onerror_effect s p state err) as (_ & _ & _ & C & _).
    unfold channel_alive. rewrite C. reflexivity.
  - vm_compute. reflexivity.
  - vm_compute. reflexivity.
  - vm_compute. reflexivity.
Qed.

(** C4, as stated, fails.  Given the source text of the arrow function
    itself, the body pattern of [start] finds no [function] keyword: the
    index into the failed match throws, the task becomes [Faulted] and the
    promise is rejected with the [TypeError] and state 30.  Given the
    function expression the arrow function compiles to, the promise is
    resolved, with data 7007.  Neither outcome is a resolution with 6007. *)
Lemma arrow_scenario_is_not_6007 :
  outcome_of (run30 arrow_src)
  = Some (Rejected
            (ResultError (VError 2 "TypeError" null_index_message) (VNum 30))) /\
  outcome_of (run30 arrow_es5_src)
  = Some (Resolved (ResultData (VNum 7007) (VNum 30))) /\
  outcome_of (run30 arrow_src)
  <> Some (Resolved (ResultData (VNum 6007) (VNum 30))) /\
  outcome_of (run30 arrow_es5_src)
  <> Some (Resolved (ResultData (VNum 6007) (VNum 30))).
Proof.
  split; [vm_compute; reflexivity|].
  split; [vm_compute; reflexivity|].
  split; vm_compute; intro H; discriminate H.
Qed.

(** C4, amended: [startNew] with the function expression
    [function (ctx) { return 1000 + 200 * ctx.state + 7; }] and input 30
    resolves the promise with data 7007 and state 30; the task ends in
    [RanToCompletion] with the error cleared. *)
Theorem function_scenario_resolves_7007 :
  outcome_of (run30 arrow_es5_src)
  = Some (Resolved (ResultData (VNum 7007) (VNum 30))) /\
  option_map status (final_of (run30 arrow_es5_src))
  = Some (Some RanToCompletion) /\
  option_map error (final_of (run30 arrow_es5_src)) = Some VNull /\
  (1000 + 200 * 30 + 7 = 7007)%Z.
Proof. repeat split; vm_compute; reflexivity. Qed.

(** C5, as stated, fails on the empty payload: the empty string is falsy, so
    it is not parsed but handed on as it is, and the promise is resolved
    with the empty string as data, which is neither [undefined] nor
    [null]. *)
Lemma empty_payload_is_passed_on :
  let s' := snd (deliver Worker.JSON_parse 0 (Success (VStr EmptyString)) pending_task) in
  promise_state 0 pending_task = Pending /\
  promise_state 0 s' = Resolved (ResultData (VStr EmptyString) (VNum 1)) /\
  isNullOrUndefined (VStr EmptyString) = false.
Proof. cbv zeta. repeat split; vm_compute; reflexivity. Qed.

Lemma nth_update_nth_pending (l : list Settlement) (p : nat) (r : Settlement) :
  nth_error l p = Some Pending ->
  nth p (update_nth p (settled r) l) Pending = r.
Proof.
  revert p. induction l as [|a l IH]; intros [|p] H; simpl in *; try discriminate.
  - injection H as ->. reflexivity.
  - apply IH. exact H.
Qed.

(** C5, amended: on a message response the payload is parsed when it is
    truthy, and the promise of the call is resolved with [{data, state}]
    where [data] is the parsed value; a falsy payload is not parsed but
    becomes [data] itself, so an absent payload ([undefined], [null]) yields
    an absent [data] and an empty payload the empty string, whatever
    [JSON.parse] would do with it.  In both cases the task ends in
    [RanToCompletion] with the error [null]. *)
Theorem message_response_resolves (JSON_parse : Value -> nat -> Outcome Value * nat)
    (s : Sys) (w p : nat) (state data : Value) :
  nth_error (promises s) p = Some Pending ->
  let s' := snd (worker_onmessage JSON_parse w p state data s) in
  (forall v n,
     truthy data = true ->
     JSON_parse data (next_ref s) = (Return v, n) ->
     promise_state p s' = Resolved (ResultData v state) /\
     status s' = Some RanToCompletion /\ error s' = VNull) /\
  (truthy data = false ->
     fst (worker_onmessage JSON_parse w p state data s) = Return tt /\
     promise_state p s' = Resolved (ResultData data state) /\
     status s' = Some RanToCompletion /\ error s' = VNull) /\
  truthy VUndefined = false /\ truthy VNull = false /\ truthy (VStr EmptyString) = false.
Proof.
  intros Hp s'.
  assert (K : forall v, payload_result JSON_parse data (next_ref s) = Return v ->
              fst (worker_onmessage JSON_parse w p state data s) = Return tt /\
              promise_state p s' = Resolved (ResultData v state) /\
              status s' = Some RanToCompletion /\ error s' = VNull).
  { intros v P. subst s'.
    destruct (onmessage_effect JSON_parse s w p state data v P)
      as (Q & M & R & _).
    split; [exact Q|]. unfold promise_state, status, error. rewrite R, M. cbn.
    split; [apply nth_update_nth_pending, Hp|].
    split; [reflexivity | apply stored_null]. }
  split; [|split; [|repeat split]].
  - intros v n T P. apply K. unfold payload_result. rewrite T, P. reflexivity.
  - intro T. apply K. unfold payload_result. rewrite T. reflexivity.
Qed.

(** The pending task of the scenarios receives an absent payload. *)
Lemma message_response_resolves_witness :
  fst (worker_onmessage Worker.JSON_parse 0 0 (VNum 1) VUndefined pending_task)
  = Return tt /\
  promise_state 0
    (snd (worker_onmessage Worker.JSON_parse 0 0 (VNum 1) VUndefined pending_task))
  = Resolved (ResultData VUndefined (VNum 1)) /\
  status (snd (worker_onmessage Worker.JSON_parse 0 0 (VNum 1) VUndefined pending_task))
  = Some RanToCompletion /\
  error (snd (worker_onmessage Worker.JSON_parse 0 0 (VNum 1) VUndefined pending_task))
  = VNull.
Proof.
  exact (proj1 (proj2
           (message_response_resolves Worker.JSON_parse pending_task 0 0
              (VNum 1) VUndefined eq_refl)) eq_refl).
Defined.

(** C6: the decomposer turns [function(ctx){ return ctx.state + 1; }] into
    the parameter names [["ctx"]] and the body [ return ctx.state + 1; ]; the
    function rebuilt from these parameters and this body, called with the
    one argument [{state: 5}], returns 6, which is what a call of the
    original function expression returns. *)
Theorem decompose_increment_roundtrip :
  Decomposer.decompose increment_src
  = Some {| Decomposer.body := " return ctx.state + 1; ";
            Decomposer.args := ["ctx"] |} /\
  match Decomposer.decompose increment_src with
  | Some d => MiniJs.call (Decomposer.args d) (Decomposer.body d) [ctx5]
  | None => None
  end = Some (MiniJs.Returns (VNum 6)) /\
  MiniJs.call_literal increment_src [ctx5] = Some (MiniJs.Returns (VNum 6)).
Proof. repeat split; vm_compute; reflexivity. Qed.

(** C9: for [function (a = f(1,2), b) { return 0; }] the parameter
    extraction returns [["a"; "2)"; "b"]] and not the declared names
    [["a"; "b"]]: at the default [=f(1,2)] the pattern for defaults matches
    four characters only, [=f(1], and stops at the comma inside the
    default. *)
Theorem default_with_comma_splits_parameter :
  Decomposer.extract_args default_comma_src = ["a"; "2)"; "b"] /\
  Decomposer.extract_args default_comma_src <> ["a"; "b"] /\
  JsString.re_default "=f(1,2),b" = Some 4 /\
  JsString.replace_all JsString.re_default "a=f(1,2),b" = "a,2),b"%string.
Proof.
  split; [reflexivity|]. split; [intro H; discriminate H|].
  split; reflexivity.
Qed.

(** The compiled [index.js] has no guard before [JSON.parse]: on an absent
    payload the handler throws what the parse throws, after the status has
    become [RanToCompletion], and the promise is left pending. *)
Remark compiled_handler_parses_absent_payload
    (JSON_parse : Value -> nat -> Outcome Value * nat) (e : Value) (n : nat) :
  JSON_parse VUndefined (next_ref pending_task) = (Throw e, n) ->
  let r := worker_onmessage_js JSON_parse 0 0 (VNum 1) VUndefined pending_task in
  fst r = Throw e /\
  promise_state 0 (snd r) = Pending /\
  status (snd r) = Some RanToCompletion.
Proof.
  intro P. unfold worker_onmessage_js, json_parse. run. cbn.
  change (next_ref pending_task) with 1 in P. rewrite P. cbn.
  repeat split.
Qed.

(** The zero-parameter case of the decomposer: no parameter names, and the
    rebuilt function returns 42 whatever state it is given. *)
Example decompose_without_parameters (state : Value) :
  Decomposer.decompose "function(){ return 42; }"
  = Some {| Decomposer.body := " return 42; "; Decomposer.args := [] |} /\
  MiniJs.call [] " return 42; " [VObj 0 [("state", state)]]
  = Some (MiniJs.Returns (VNum 42)).
Proof. split; reflexivity. Qed.

(** Comments, white space and a default value inside the parameter list. *)
Example extract_args_with_comments :
  Decomposer.extract_args
    "function /* name */ f(a, // first
       b /* second */, c = 3) { return a; }" = ["a"; "b"; "c"].
Proof. reflexivity. Qed.

(** The function of the demo application, started with 30. *)
Example demo_scenario :
  outcome_of (run30 "function (ctx) {
    var a = 1000;
    var b = 200;
    var c = ctx.state;
    // return 0;
    return (a + b * c + 7);
}") = Some (Resolved (ResultData (VNum 7007) (VNum 30))).
Proof. vm_compute. reflexivity. Qed.

End Claims.

(** * Further properties of the decomposer and of task runs *)

Module Extras.
Import Js Tasks TaskFacts Scenario JsString Shapes Run.

(** ** Strings *)

Lemma sapp_assoc (a b c : string) : (a ++ b) ++ c = a ++ (b ++ c).
Proof. induction a as [|x a IH]; simpl; [reflexivity | now rewrite IH]. Qed.

Lemma sapp_nil_r (a : string) : a ++ "" = a.
Proof. induction a as [|x a IH]; simpl; [reflexivity | now rewrite IH]. Qed.

Lemma run_length_app (p : ascii -> bool) (a : string) (c : ascii) (r : string) :
  all_chars p a = true -> p c = false ->
  run_length p (a ++ String c r) = String.length a.
Proof.
  intros A C. induction a as [|x a IH]; simpl in *.
  - now rewrite C.
  - apply andb_prop in A as [X A]. rewrite X. now rewrite IH.
Qed.

Lemma run_length_all (p : ascii -> bool) (a : string) :
  all_chars p a = true -> run_length p a = String.length a.
Proof.
  intros A. induction a as [|x a IH]; simpl in *; [reflexivity|].
  apply andb_prop in A as [X A]. rewrite X. now rewrite IH.
Qed.

Lemma drop_app (a b : string) : drop (String.length a) (a ++ b) = b.
Proof. induction a as [|x a IH]; simpl; [now destruct b | exact IH]. Qed.

Lemma ends_with_char_app (c : ascii) (a : string) :
  ends_with_char c (a ++ String c "") = true.
Proof.
  induction a as [|x a IH]; simpl; [apply Ascii.eqb_refl|].
  destruct (a ++ String c "") eqn:E; [destruct a; discriminate E | exact IH].
Qed.

Lemma remove_last_app (c : ascii) (a : string) :
  remove_last (a ++ String c "") = a.
Proof.
  induction a as [|x a IH]; simpl; [reflexivity|].
  destruct (a ++ String c "") eqn:E; [destruct a; discriminate E|].
  now rewrite IH.
Qed.

Lemma ends_with_char_drop (c : ascii) (n : nat) (s : string) :
  ends_with_char c (drop n s) = true -> ends_with_char c s = true.
Proof.
  revert s. induction n as [|n IH]; intros s H.
  - now destruct s.
  - destruct s as [|x s]; [exact H|]. simpl in H. apply IH in H.
    simpl. destruct s; [discriminate H | exact H].
Qed.

Lemma function_literal_at_ends (s b : string) :
  function_literal_at s = Some b -> ends_with_char "}" s = true.
Proof.
  unfold function_literal_at. destruct (starts_with "function" s); [|discriminate].
  set (after := drop 8 s).
  set (n := run_length (fun c => negb (Ascii.eqb c "{")) after).
  destruct n as [|n'] eqn:N; [discriminate|].
  destruct (drop (S n') after) as [|x rest] eqn:D; [discriminate|].
  destruct (Ascii.eqb_spec x "{"%char) as [->|X].
  2:{ destruct x as [[] [] [] [] [] [] [] []]; try discriminate; congruence. }
  destruct (ends_with_char "}" rest) eqn:E; [|discriminate]. intros _.
  apply (ends_with_char_drop _ 8). fold after.
  apply (ends_with_char_drop _ (S n')). rewrite D.
  simpl. destruct rest; [discriminate E | exact E].
Qed.

Lemma match_none_without_brace (s : string) :
  ends_with_char "}" s = false -> match_function_literal s = None.
Proof.
  induction s as [|x s IH]; intro H.
  - reflexivity.
  - simpl. destruct (function_literal_at (String x s)) as [b|] eqn:F.
    + apply function_literal_at_ends in F. congruence.
    + apply IH. simpl in H. destruct s; [reflexivity | exact H].
Qed.

Lemma match_none_without_keyword (s : string) :
  MiniJs.contains "function" s = false -> match_function_literal s = None.
Proof.
  induction s as [|x s IH]; intro H.
  - reflexivity.
  - change (MiniJs.contains "function" (String x s))
      with (starts_with "function" (String x s) || MiniJs.contains "function" s) in H.
    apply orb_false_elim in H as [H1 H2].
    change (match_function_literal (String x s))
      with (match function_literal_at (String x s) with
            | Some body => Some body
            | None => match_function_literal s
            end).
    unfold function_literal_at. rewrite H1. apply IH, H2.
Qed.

(** X1: for a function expression, [function] followed by a header
    without [{] (name and parameter list, not empty), a [{], any body and
    the closing [}], the body pattern yields exactly the body, braces and
    line breaks inside it included. *)
Theorem body_of_function_expression (header body : string) :
  header <> "" ->
  all_chars (none_of "{") header = true ->
  Decomposer.extract_body ("function" ++ header ++ "{" ++ body ++ "}")
  = Some body.
Proof.
  intros N A. unfold Decomposer.extract_body.
  assert (F : function_literal_at ("function" ++ header ++ "{" ++ body ++ "}")
              = Some body).
  { unfold function_literal_at.
    change (starts_with "function" ("function" ++ header ++ "{" ++ body ++ "}"))
      with true.
    change (drop 8 ("function" ++ header ++ "{" ++ body ++ "}"))
      with (header ++ String "{" (body ++ "}")).
    cbv iota zeta.
    rewrite (run_length_app _ header "{" (body ++ "}")).
    - destruct (String.length header) as [|k] eqn:L.
      + destruct header; [congruence | discriminate L].
      + rewrite <- L, drop_app.
        change (body ++ "}") with (body ++ String "}" "").
        rewrite ends_with_char_app, remove_last_app. reflexivity.
    - clear N. induction header as [|h header IH]; [reflexivity|].
      simpl in *. apply andb_prop in A as [X A]. rewrite IH by exact A.
      unfold none_of in X. simpl in X. rewrite orb_false_r in X. now rewrite X.
    - reflexivity. }
  remember ("function" ++ header ++ "{" ++ body ++ "}") as src eqn:E.
  destruct src as [|x src]; [discriminate E|].
  change (match_function_literal (String x src))
    with (match function_literal_at (String x src) with
          | Some b => Some b
          | None => match_function_literal src
          end).
  rewrite F. reflexivity.
Qed.

Lemma body_of_function_expression_witness :
  Decomposer.extract_body
    ("function" ++ " (ctx) " ++ "{" ++ " if (ctx) { return 1; } " ++ "}")
  = Some " if (ctx) { return 1; } ".
Proof.
  apply (body_of_function_expression " (ctx) " " if (ctx) { return 1; } ").
  - discriminate.
  - reflexivity.
Defined.

(** X2: the body pattern finds nothing in a source text that lacks the
    keyword [function] or does not end with [}] (an arrow function with an
    expression body, a text with trailing characters), and then there is no
    decomposition. *)
Theorem no_body_without_keyword_or_brace (src : string) :
  MiniJs.contains "function" src = false \/ ends_with_char "}" src = false ->
  Decomposer.extract_body src = None /\ Decomposer.decompose src = None.
Proof.
  intro H.
  assert (E : Decomposer.extract_body src = None).
  { destruct H as [H | H];
      [apply match_none_without_keyword | apply match_none_without_brace];
      exact H. }
  split; [exact E|]. unfold Decomposer.decompose. now rewrite E.
Qed.

Lemma no_body_without_keyword_or_brace_witness :
  Decomposer.extract_body "(a, b) => a + b" = None /\
  Decomposer.decompose "(a, b) => a + b" = None.
Proof.
  exact (no_body_without_keyword_or_brace "(a, b) => a + b" (or_introl eq_refl)).
Defined.

(** ** The passes of the parameter extraction *)

Lemma keep_app (p : ascii -> bool) (a b : string) :
  keep p (a ++ b) = keep p a ++ keep p b.
Proof.
  induction a as [|x a IH]; simpl; [reflexivity|].
  destruct (p x); simpl; now rewrite IH.
Qed.

Lemma keep_none (p : ascii -> bool) (a : string) :
  all_chars (fun c => negb (p c)) a = true -> keep p a = "".
Proof.
  induction a as [|x a IH]; simpl; [reflexivity|]. intro H.
  apply andb_prop in H as [X A]. apply negb_true_iff in X. rewrite X. auto.
Qed.

Lemma all_chars_keep (q p : ascii -> bool) (a : string) :
  all_chars q a = true -> all_chars q (keep p a) = true.
Proof.
  induction a as [|x a IH]; simpl; [reflexivity|]. intro H.
  apply andb_prop in H as [X A]. destruct (p x); simpl; [rewrite X|]; auto.
Qed.

Lemma all_chars_app (q : ascii -> bool) (a b : string) :
  all_chars q (a ++ b) = all_chars q a && all_chars q b.
Proof.
  induction a as [|x a IH]; simpl; [reflexivity|].
  now rewrite IH, andb_assoc.
Qed.

Lemma all_chars_weaken (q q' : ascii -> bool) (a : string) :
  (forall c, q c = true -> q' c = true) ->
  all_chars q a = true -> all_chars q' a = true.
Proof.
  intro W. induction a as [|x a IH]; simpl; [reflexivity|]. intro H.
  apply andb_prop in H as [X A]. rewrite (W _ X). auto.
Qed.

(** A pattern that cannot start with the characters of a prefix leaves the
    prefix in place. *)
Lemma replace_all_prefix (re : pattern) (q : ascii -> bool) (a rest : string) :
  (forall c x, q c = true -> re (String c x) = None) ->
  all_chars q a = true ->
  replace_all_from re 0 (a ++ rest) = a ++ replace_all_from re 0 rest.
Proof.
  intros Q. induction a as [|x a IH]; simpl; [reflexivity|]. intro H.
  apply andb_prop in H as [X A]. rewrite (Q x (a ++ rest) X). now rewrite IH.
Qed.

Lemma replace_all_skip (re : pattern) (a rest : string) :
  replace_all_from re (String.length a) (a ++ rest) = replace_all_from re 0 rest.
Proof.
  induction a as [|x a IH]; simpl; [now destruct rest | exact IH].
Qed.

Lemma none_of_head (chars : string) (c x : ascii) :
  none_of chars c = true ->
  In x (list_ascii_of_string chars) -> Ascii.eqb x c = false.
Proof.
  unfold none_of. intros H I. apply negb_true_iff in H.
  destruct (Ascii.eqb_spec x c) as [->|]; [|reflexivity].
  rewrite <- H. symmetry. apply existsb_exists. exists c. split; [exact I|].
  apply Ascii.eqb_refl.
Qed.

Lemma line_comment_needs_slash (c : ascii) (x : string) :
  none_of "/" c = true -> re_line_comment (String c x) = None.
Proof.
  intro H. unfold re_line_comment. cbn [starts_with].
  rewrite (none_of_head "/" c "/"%char H) by (left; reflexivity). reflexivity.
Qed.

Lemma block_comment_needs_slash (c : ascii) (x : string) :
  none_of "/" c = true -> re_block_comment (String c x) = None.
Proof.
  intro H. unfold re_block_comment. cbn [starts_with].
  rewrite (none_of_head "/" c "/"%char H) by (left; reflexivity). reflexivity.
Qed.

Lemma default_needs_equals (c : ascii) (x : string) :
  none_of "=" c = true -> re_default (String c x) = None.
Proof.
  intro H. unfold re_default. cbn [starts_with].
  rewrite (none_of_head "=" c "="%char H) by (left; reflexivity). reflexivity.
Qed.

(** [replace(/\s+/g, '')] removes exactly the white space. *)
Lemma replace_spaces_from (s : string) (k : nat) :
  k <= run_length is_space s ->
  replace_all_from re_spaces k s = squeeze s.
Proof.
  revert k. induction s as [|c r IH]; intros k H; [reflexivity|].
  unfold squeeze in *. cbn [run_length keep] in *.
  destruct (is_space c) eqn:C; cbn [negb].
  - destruct k as [|k]; cbn [replace_all_from].
    + assert (R : re_spaces (String c r) = Some (S (run_length is_space r))).
      { unfold re_spaces. cbn [run_length]. now rewrite C. }
      rewrite R. apply IH. lia.
    + apply IH. lia.
  - assert (k = 0) as -> by lia. cbn [replace_all_from].
    assert (R : re_spaces (String c r) = None).
    { unfold re_spaces. cbn [run_length]. now rewrite C. }
    rewrite R. now rewrite (IH 0) by lia.
Qed.

Lemma replace_spaces (s : string) : replace_all re_spaces s = squeeze s.
Proof. apply replace_spaces_from. lia. Qed.

Lemma before_first_app (a b : string) :
  all_chars (none_of ")") a = true ->
  before_first "){" (a ++ "){" ++ b) = a.
Proof.
  induction a as [|x a IH]; intro H.
  - reflexivity.
  - simpl in H. apply andb_prop in H as [X A].
    change (before_first "){" (String x a ++ "){" ++ b))
      with (if starts_with "){" (String x (a ++ "){" ++ b)) then ""
            else String x (before_first "){" (a ++ "){" ++ b))).
    cbn [starts_with].
    rewrite (none_of_head ")" x ")"%char X) by (left; reflexivity).
    cbn [andb]. now rewrite IH.
Qed.

Lemma drop_past (a : string) (c : ascii) (b : string) :
  drop (S (String.length a)) (a ++ String c b) = b.
Proof. induction a as [|x a IH]; simpl; [now destruct b | exact IH]. Qed.

Lemma up_to_paren_app (a b : string) :
  all_chars (none_of "(") a = true ->
  replace_anchored re_up_to_paren (a ++ "(" ++ b) = b.
Proof.
  intro H. change (a ++ "(" ++ b) with (a ++ String "(" b).
  assert (R : re_up_to_paren (a ++ String "(" b) = Some (S (String.length a))).
  { unfold re_up_to_paren. cbv zeta.
    rewrite (run_length_app _ a "(" b).
    - rewrite drop_app. reflexivity.
    - eapply all_chars_weaken; [|exact H]. intros c C.
      rewrite Ascii.eqb_sym.
      now rewrite (none_of_head "(" c "("%char C) by (left; reflexivity).
    - reflexivity. }
  unfold replace_anchored. rewrite R. apply drop_past.
Qed.

Lemma default_at_equals (d t : string) :
  nonempty d = true ->
  all_chars (none_of ",") d = true ->
  t = "" \/ (exists t', t = String "," t') ->
  replace_all_from re_default 0 (String "=" (d ++ t))
  = replace_all_from re_default 0 t.
Proof.
  intros N A T.
  assert (L : run_length (fun c => negb (Ascii.eqb c ",")) (d ++ t)
              = String.length d).
  { assert (A' : all_chars (fun c => negb (Ascii.eqb c ",")) d = true).
    { eapply all_chars_weaken; [|exact A]. intros c C. rewrite Ascii.eqb_sym.
      now rewrite (none_of_head "," c ","%char C) by (left; reflexivity). }
    destruct T as [-> | (t' & ->)].
    - rewrite sapp_nil_r. now apply run_length_all.
    - now apply run_length_app. }
  assert (R : re_default (String "=" (d ++ t)) = Some (S (String.length d))).
  { unfold re_default. cbn [starts_with drop]. rewrite Ascii.eqb_refl.
    cbn [andb]. rewrite L. destruct d; [discriminate N | reflexivity]. }
  cbn [replace_all_from]. rewrite R. apply replace_all_skip.
Qed.

Lemma default_of_param (p : Param) (t : string) :
  readable p = true ->
  t = "" \/ (exists t', t = String "," t') ->
  replace_all_from re_default 0 (render p ++ t)
  = fst p ++ replace_all_from re_default 0 t.
Proof.
  destruct p as [name [d|]]; unfold readable, render; cbn [fst]; intros R T.
  - apply andb_prop in R as [R D]. apply andb_prop in R as [_ A].
    apply andb_prop in D as [N D].
    rewrite sapp_assoc.
    rewrite (replace_all_prefix re_default (none_of "=")).
    + f_equal. change ("=" ++ d ++ t) with (String "=" (d ++ t)).
      now apply default_at_equals.
    + intros c x. apply default_needs_equals.
    + eapply all_chars_weaken; [|exact A]. intros c C. unfold none_of in *.
      cbn in *. destruct (Ascii.eqb c ","); [discriminate C|]. exact C.
  - apply andb_prop in R as [R _]. apply andb_prop in R as [_ A].
    apply (replace_all_prefix re_default (none_of "=")).
    + intros c x. apply default_needs_equals.
    + eapply all_chars_weaken; [|exact A]. intros c C. unfold none_of in *.
      cbn in *. destruct (Ascii.eqb c ","); [discriminate C|]. exact C.
Qed.

Lemma defaults_of_list (items : list Param) :
  forallb readable items = true ->
  replace_all re_default (Json.join "," (map render items))
  = Json.join "," (map fst items).
Proof.
  unfold replace_all. induction items as [|p [|q items] IH]; intro R.
  - reflexivity.
  - cbn [map Json.join]. cbn in R. rewrite andb_true_r in R.
    rewrite <- (sapp_nil_r (render p)).
    rewrite default_of_param by (auto). cbn. apply sapp_nil_r.
  - cbn [forallb] in R. apply andb_prop in R as [Rp R].
    change (Json.join "," (map render (p :: q :: items)))
      with (render p ++ String "," (Json.join "," (map render (q :: items)))).
    change (Json.join "," (map fst (p :: q :: items)))
      with (fst p ++ String "," (Json.join "," (map fst (q :: items)))).
    rewrite default_of_param by (eauto). f_equal.
    cbn [replace_all_from]. change (re_default (String "," ?x)) with (@None nat).
    cbv iota. f_equal. apply IH. exact R.
Qed.

Lemma rev_string_twice (n a b : string) :
  rev_string a (rev_string b n) = rev_string (n ++ a) b.
Proof.
  revert a b. induction n as [|c n IH]; intros a b; [reflexivity|].
  cbn [rev_string]. rewrite IH. reflexivity.
Qed.

Lemma rev_string_back (n : string) : rev_string "" (rev_string "" n) = n.
Proof. rewrite rev_string_twice. cbn. apply sapp_nil_r. Qed.

Lemma split_on_piece (n t cur : string) :
  all_chars (none_of ",") n = true ->
  split_on "," cur (n ++ t) = split_on "," (rev_string cur n) t.
Proof.
  revert cur. induction n as [|c n IH]; intros cur A; [reflexivity|].
  cbn [all_chars] in A. apply andb_prop in A as [C A].
  cbn [append split_on rev_string].
  rewrite Ascii.eqb_sym, (none_of_head "," c ","%char C) by (left; reflexivity).
  now apply IH.
Qed.

Lemma split_join (names : list string) :
  names <> [] ->
  forallb (all_chars (none_of ",")) names = true ->
  split "," (Json.join "," names) = names.
Proof.
  unfold split. induction names as [|n [|m names] IH]; intros N A.
  - congruence.
  - cbn in A. rewrite andb_true_r in A. cbn [Json.join].
    rewrite <- (sapp_nil_r n) at 1. rewrite split_on_piece by exact A.
    cbn [split_on]. now rewrite rev_string_back.
  - cbn [forallb] in A. apply andb_prop in A as [An A].
    change (Json.join "," (n :: m :: names))
      with (n ++ String "," (Json.join "," (m :: names))).
    rewrite split_on_piece by exact An. cbn [split_on].
    rewrite Ascii.eqb_refl, rev_string_back. f_equal.
    apply IH; [discriminate | exact A].
Qed.

Lemma readable_names (items : list Param) :
  forallb readable items = true ->
  forallb (all_chars (none_of ",")) (map fst items) = true /\
  filter nonempty (map fst items) = map fst items.
Proof.
  induction items as [|[name d] items IH]; intro R; [split; reflexivity|].
  cbn [forallb] in R. apply andb_prop in R as [Rp R].
  destruct (IH R) as [I1 I2]. unfold readable in Rp.
  apply andb_prop in Rp as [Rp _]. apply andb_prop in Rp as [N A].
  cbn [map fst forallb filter]. rewrite N, I1, I2. split; [|reflexivity].
  rewrite andb_true_r. eapply all_chars_weaken; [|exact A].
  intros c C. unfold none_of in *. cbn in *.
  destruct (Ascii.eqb c ","); [discriminate C | reflexivity].
Qed.

Lemma space_is_no_slash (c : ascii) : is_space c = true -> none_of "/" c = true.
Proof.
  destruct c as [[] [] [] [] [] [] [] []]; intro H; try reflexivity;
    discriminate H.
Qed.

Lemma none_of_sub (big small : string) (c : ascii) :
  (forall x, In x (list_ascii_of_string small) -> In x (list_ascii_of_string big)) ->
  none_of big c = true -> none_of small c = true.
Proof.
  unfold none_of. intros S H. apply negb_true_iff in H. apply negb_true_iff.
  destruct (existsb (Ascii.eqb c) (list_ascii_of_string small)) eqn:E;
    [|reflexivity].
  apply existsb_exists in E as (x & I & X). rewrite <- H. symmetry.
  apply existsb_exists. exists x. split; [apply S, I | exact X].
Qed.

(** X4: for a source text made of a prefix without [/], [(] and [)], a
    parameter list between [(] and [)] without [/] and [)], white space, a
    [{] and anything behind it, where the parameter list without its white
    space is the comma-separated list of readable parameters (a name, or a
    name, [=] and a default without comma), the extraction returns the
    parameter names in order, defaults dropped. *)
Theorem parameters_of_function_header
    (pre ptext gap rest : string) (items : list Param) :
  all_chars (none_of "/()") pre = true ->
  all_chars (none_of "/)") ptext = true ->
  all_chars is_space gap = true ->
  squeeze ptext = Json.join "," (map render items) ->
  forallb readable items = true ->
  Decomposer.extract_args (pre ++ "(" ++ ptext ++ ")" ++ gap ++ "{" ++ rest)
  = map fst items.
Proof.
  intros Hpre Hp Hgap Hitems Hread.
  assert (Pslash : all_chars (none_of "/") pre = true).
  { eapply all_chars_weaken; [|exact Hpre]. intro c. apply none_of_sub.
    cbn. tauto. }
  assert (Pclose : all_chars (none_of ")") pre = true).
  { eapply all_chars_weaken; [|exact Hpre]. intro c. apply none_of_sub.
    cbn. tauto. }
  assert (Popen : all_chars (none_of "(") pre = true).
  { eapply all_chars_weaken; [|exact Hpre]. intro c. apply none_of_sub.
    cbn. tauto. }
  assert (Tslash : all_chars (none_of "/") ptext = true).
  { eapply all_chars_weaken; [|exact Hp]. intro c. apply none_of_sub.
    cbn. tauto. }
  assert (Tclose : all_chars (none_of ")") ptext = true).
  { eapply all_chars_weaken; [|exact Hp]. intro c. apply none_of_sub.
    cbn. tauto. }
  assert (Gslash : all_chars (none_of "/") gap = true).
  { eapply all_chars_weaken; [|exact Hgap]. apply space_is_no_slash. }
  unfold Decomposer.extract_args. cbv zeta.
  (* single-line comments *)
  replace (pre ++ "(" ++ ptext ++ ")" ++ gap ++ "{" ++ rest)
    with ((pre ++ "(" ++ ptext ++ ")" ++ gap ++ "{") ++ rest)
    by (now rewrite !sapp_assoc).
  unfold replace_all at 4.
  rewrite (replace_all_prefix re_line_comment (none_of "/"));
    [|apply line_comment_needs_slash|].
  2:{ rewrite !all_chars_app, Pslash, Tslash, Gslash. reflexivity. }
  set (r1 := replace_all_from re_line_comment 0 rest).
  (* white space *)
  rewrite replace_spaces. unfold squeeze at 1. rewrite !keep_app.
  fold (squeeze pre) (squeeze ptext) (squeeze gap) (squeeze r1).
  assert (G0 : squeeze gap = "").
  { apply keep_none. eapply all_chars_weaken; [|exact Hgap].
    intros c C. now rewrite C. }
  rewrite G0.
  change (keep (fun c => negb (is_space c)) "(") with "(".
  change (keep (fun c => negb (is_space c)) ")") with ")".
  change (keep (fun c => negb (is_space c)) "{") with "{".
  change (")" ++ "" ++ "{") with "){".
  (* block comments *)
  replace ((squeeze pre ++ "(" ++ squeeze ptext ++ "){") ++ squeeze r1)
    with (((squeeze pre ++ "(" ++ squeeze ptext) ++ "){") ++ squeeze r1)
    by (now rewrite !sapp_assoc).
  unfold replace_all at 2.
  rewrite (replace_all_prefix re_block_comment (none_of "/"));
    [|apply block_comment_needs_slash|].
  2:{ rewrite !all_chars_app. unfold squeeze.
      rewrite !all_chars_keep by assumption. reflexivity. }
  set (r3 := replace_all_from re_block_comment 0 (squeeze r1)).
  (* the text before the first "){" *)
  rewrite sapp_assoc. rewrite before_first_app.
  2:{ rewrite !all_chars_app. unfold squeeze.
      rewrite !all_chars_keep by assumption. reflexivity. }
  (* the text behind the first "(" *)
  rewrite up_to_paren_app by (unfold squeeze; now apply all_chars_keep).
  (* defaults, split and filter *)
  rewrite Hitems, defaults_of_list by exact Hread.
  destruct (readable_names items Hread) as [Hc Hf].
  destruct items as [|p items]; [reflexivity|].
  rewrite split_join; [exact Hf | discriminate | exact Hc].
Qed.

Lemma parameters_of_function_header_witness :
  Decomposer.extract_args
    ("function f" ++ "(" ++ "a, b = 2" ++ ")" ++ " " ++ "{" ++ " return a + b; }")
  = map fst [("a", None); ("b", Some "2")].
Proof.
  apply (parameters_of_function_header "function f" "a, b = 2" " "
           " return a + b; }" [("a", None); ("b", Some "2")]);
    reflexivity.
Defined.

Lemma all_chars_replace (q : ascii -> bool) (re : pattern) (s : string) (k : nat) :
  all_chars q s = true -> all_chars q (replace_all_from re k s) = true.
Proof.
  revert k. induction s as [|c r IH]; intros k H; [reflexivity|].
  cbn [all_chars] in H. apply andb_prop in H as [C A].
  cbn [replace_all_from]. destruct k as [|k]; [|now apply IH].
  destruct (re (String c r)) as [[|n]|]; cbn [all_chars];
    rewrite ?C; now rewrite ?IH.
Qed.

Lemma all_chars_before_first (q : ascii -> bool) (sep s : string) :
  all_chars q s = true -> all_chars q (before_first sep s) = true.
Proof.
  induction s as [|c r IH]; intro H; [reflexivity|].
  cbn [all_chars] in H. apply andb_prop in H as [C A].
  cbn [before_first]. destruct (starts_with sep (String c r)); [reflexivity|].
  cbn [all_chars]. now rewrite C, IH.
Qed.

Lemma all_chars_drop (q : ascii -> bool) (n : nat) (s : string) :
  all_chars q s = true -> all_chars q (drop n s) = true.
Proof.
  revert s. induction n as [|n IH]; intros s H; [now destruct s|].
  destruct s as [|c r]; [reflexivity|].
  cbn [all_chars] in H. apply andb_prop in H as [_ A]. now apply IH.
Qed.

Lemma all_chars_kept (p : ascii -> bool) (s : string) :
  all_chars p (keep p s) = true.
Proof.
  induction s as [|c r IH]; [reflexivity|]. cbn [keep].
  destruct (p c) eqn:C; [cbn [all_chars]; now rewrite C | exact IH].
Qed.

Lemma all_chars_rev (q : ascii -> bool) (acc s : string) :
  all_chars q acc = true -> all_chars q s = true ->
  all_chars q (rev_string acc s) = true.
Proof.
  revert acc. induction s as [|c r IH]; intros acc A H; [exact A|].
  cbn [all_chars] in H. apply andb_prop in H as [C S].
  cbn [rev_string]. apply IH; [cbn [all_chars]; now rewrite C | exact S].
Qed.

Lemma split_on_pieces (q : ascii -> bool) (sep : ascii) (cur s : string) :
  all_chars q cur = true -> all_chars q s = true ->
  Forall (fun x => all_chars q x = true) (split_on sep cur s).
Proof.
  revert cur. induction s as [|c r IH]; intros cur A H.
  - constructor; [|constructor]. now apply all_chars_rev.
  - cbn [all_chars] in H. apply andb_prop in H as [C S]. cbn [split_on].
    destruct (Ascii.eqb c sep).
    + constructor; [now apply all_chars_rev | now apply IH].
    + apply IH; [cbn [all_chars]; now rewrite C | exact S].
Qed.

Lemma split_on_no_separator (sep : ascii) (cur s : string) :
  all_chars (fun c => negb (Ascii.eqb c sep)) cur = true ->
  Forall (fun x => all_chars (fun c => negb (Ascii.eqb c sep)) x = true)
         (split_on sep cur s).
Proof.
  revert cur. induction s as [|c r IH]; intros cur A.
  - constructor; [|constructor]. now apply all_chars_rev.
  - cbn [split_on]. destruct (Ascii.eqb c sep) eqn:E.
    + constructor; [now apply all_chars_rev | now apply IH].
    + apply IH. cbn [all_chars]. now rewrite E.
Qed.

(** X5: whatever the source text, every extracted parameter name is not
    empty and holds neither white space nor a comma. *)
Theorem extracted_names_are_clean (src : string) :
  Forall (fun name =>
            name <> "" /\
            all_chars (fun c => negb (is_space c)) name = true /\
            all_chars (fun c => negb (Ascii.eqb c ",")) name = true)
         (Decomposer.extract_args src).
Proof.
  unfold Decomposer.extract_args. cbv zeta.
  set (s1 := replace_all re_line_comment src).
  set (s6 := replace_all re_default _).
  assert (W : all_chars (fun c => negb (is_space c)) s6 = true).
  { subst s6. unfold replace_all at 1. apply all_chars_replace.
    unfold replace_anchored.
    match goal with |- context [re_up_to_paren ?x] =>
      destruct (re_up_to_paren x) as [n|] end;
      [apply all_chars_drop|]; apply all_chars_before_first;
      unfold replace_all at 1; apply all_chars_replace;
      rewrite replace_spaces; apply all_chars_kept. }
  apply Forall_forall. intros name I. apply filter_In in I as [I N].
  pose proof (split_on_pieces (fun c => negb (is_space c)) "," "" s6 eq_refl W)
    as F1.
  pose proof (split_on_no_separator "," "" s6 eq_refl) as F2.
  rewrite Forall_forall in F1, F2. unfold split in I.
  split; [|split; [apply F1, I | apply F2, I]].
  intros ->. discriminate N.
Qed.

(** ** Task runs *)

Local Open Scope list_scope.

Lemma last_opt_some {A} (x : A) (l : list A) : exists y, last_opt (x :: l) = Some y.
Proof.
  revert x. induction l as [|z l IH]; intro x; [now exists x|].
  destruct (IH z) as (y & E). exists y. exact E.
Qed.

Lemma last_opt_cons {A} (x : A) (l : list A) :
  last_opt (x :: l) = match last_opt l with
                      | Some y => Some y
                      | None => Some x
                      end.
Proof.
  destruct l as [|z l]; [reflexivity|].
  destruct (last_opt_some z l) as (y & E).
  change (last_opt (x :: z :: l)) with (last_opt (z :: l)). now rewrite E.
Qed.

Lemma last_opt_app {A} (a b : list A) :
  last_opt (a ++ b) = match last_opt b with
                      | Some x => Some x
                      | None => last_opt a
                      end.
Proof.
  induction a as [|x a IH]; cbn [app].
  - now destruct (last_opt b).
  - rewrite !last_opt_cons, IH. now destruct (last_opt b).
Qed.

Lemma observed_app (name : string) (a b : list (string * Value)) :
  observed name (a ++ b) = match observed name b with
                               | Some x => Some x
                               | None => observed name a
                               end.
Proof. unfold observed. rewrite Claims.notified_app. apply last_opt_app. Qed.

Lemma sync_error (t : Task) (l : list (string * Value)) (e : Value) :
  sync t l ->
  sync (with_error (stored e (_error t)) t) (l ++ error_notice e (_error t)).
Proof.
  intros [S E]. unfold sync, stored, error_notice.
  destruct (strict_neq e (_error t)); rewrite !observed_app; cbn.
  - split; [exact S | reflexivity].
  - split; [exact S | exact E].
Qed.

Lemma sync_status (t : Task) (l : list (string * Value)) (vs : list TaskStatus)
    (v : TaskStatus) :
  sync t l ->
  sync (with_status v t)
    (l ++ map (fun x => ("status", status_value x)) (vs ++ [v])).
Proof.
  intros [S E]. unfold sync. rewrite !observed_app.
  assert (O1 : observed "status"
                 (map (fun x => ("status", status_value x)) (vs ++ [v]))
               = Some (status_value v)).
  { rewrite map_app. rewrite observed_app. reflexivity. }
  assert (O2 : observed "error"
                 (map (fun x => ("status", status_value x)) (vs ++ [v])) = None).
  { clear O1. unfold observed, notified.
    generalize (vs ++ [v]). intro l0.
    induction l0 as [|x r IH]; [reflexivity | exact IH]. }
  rewrite O1, O2. split; [reflexivity | exact E].
Qed.

Lemma sync_status_notice (t : Task) (l : list (string * Value)) (v : TaskStatus) :
  sync t l ->
  sync (with_status v t) (l ++ status_notice v (_status t)).
Proof.
  intro S. destruct (Claims.status_notice_cases v (_status t)) as [[E N] | [_ N]];
    rewrite N.
  - rewrite app_nil_r. destruct S as [S1 S2]. split; [|exact S2].
    cbn. rewrite S1, E. reflexivity.
  - exact (sync_status t l [] v S).
Qed.

Section RunFacts.

Variable JSON_parse : Value -> nat -> Outcome Value * nat.

Lemma start_cases (s : Sys) (state : Value) :
  (may_start (status s) = false) \/
  (may_start (status s) = true /\
   (worker_fault s <> None \/
    (truthy (func s) = true /\
     Decomposer.extract_body (Json.to_string (func s)) = None))) \/
  (may_start (status s) = true /\ worker_fault s = None /\
   (truthy (func s) = false \/
    Decomposer.extract_body (Json.to_string (func s)) <> None)).
Proof.
  destruct (may_start (status s)); [|left; reflexivity]. right.
  destruct (worker_fault s); [left; split; [reflexivity | left; discriminate]|].
  destruct (truthy (func s)); [|right; auto].
  destruct (Decomposer.extract_body (Json.to_string (func s)));
    [right; split; [|split]; auto; right; discriminate | left; auto].
Qed.

Lemma perform_keeps_sync (a : Action) (s : Sys) :
  in_sync s -> in_sync (perform JSON_parse a s).
Proof.
  unfold in_sync. intro S. destruct a as [state | w p state data | p state err];
    cbn [perform].
  - destruct (start_cases s state) as [G | [[G C] | [G [W C]]]].
    + destruct (start_conflict s state G) as (_ & _ & T & _ & N).
      rewrite T, N. apply sync_error, S.
    + destruct (start_faults s state G C) as (_ & _ & T & _ & N).
      rewrite T, N, app_assoc.
      apply (sync_error (with_status Faulted (me s))).
      exact (sync_status (me s) _ [WaitingToRun] Faulted S).
    + destruct (start_dispatches s state G W C) as (_ & _ & T & _ & N).
      rewrite T, N. exact (sync_status (me s) _ [WaitingToRun] Running S).
  - destruct (payload_result JSON_parse data (next_ref s)) as [v|e] eqn:P.
    + destruct (onmessage_effect JSON_parse s w p state data v P)
        as (_ & T & _ & _ & N).
      rewrite T, N, app_assoc.
      apply (sync_error (with_status RanToCompletion (me s))).
      apply sync_status_notice, S.
    + destruct (onmessage_throws JSON_parse s w p state data e P)
        as (_ & T & _ & _ & N).
      rewrite T, N. exact S.
  - destruct (onerror_effect s p state err) as (_ & T & _ & _ & N).
    rewrite T, N, app_assoc.
    apply (sync_error (with_status Faulted (me s))).
    apply sync_status_notice, S.
Qed.

Lemma Forall_update_nth {A} (P : A -> Prop) (f : A -> A) (i : nat) (l : list A) :
  (forall x, P x -> P (f x)) -> Forall P l -> Forall P (update_nth i f l).
Proof.
  intros F H. revert i. induction H as [|x l Hx Hl IH]; intros [|i]; cbn;
    constructor; auto.
Qed.

Lemma perform_keeps_single_use (a : Action) (s : Sys) :
  single_use s -> single_use (perform JSON_parse a s).
Proof.
  unfold single_use. intro S. destruct a as [state | w p state data | p state err];
    cbn [perform].
  - destruct (start_cases s state) as [G | [[G C] | [G [W C]]]].
    + destruct (start_conflict s state G) as (_ & _ & _ & Ch & _).
      now rewrite Ch.
    + destruct (start_faults s state G C) as (_ & _ & _ & Ch & _).
      rewrite Ch. apply Forall_app. split; [exact S|].
      destruct (worker_fault s); repeat constructor.
    + destruct (start_dispatches s state G W C) as (_ & _ & _ & Ch & _).
      rewrite Ch. apply Forall_app. split; [exact S|]. repeat constructor.
  - assert (Ch : channels (snd (worker_onmessage JSON_parse w p state data s))
                 = update_nth w terminated (channels s)).
    { destruct (payload_result JSON_parse data (next_ref s)) as [v|e] eqn:P.
      - now destruct (onmessage_effect JSON_parse s w p state data v P)
          as (_ & _ & _ & Ch & _).
      - now destruct (onmessage_throws JSON_parse s w p state data e P)
          as (_ & _ & _ & Ch & _). }
    rewrite Ch. apply Forall_update_nth; [|exact S]. intros c Hc. exact Hc.
  - destruct (onerror_effect s p state err) as (_ & _ & _ & Ch & _).
    now rewrite Ch.
Qed.

(** X10: [updateStatus] and [updateError] are the only writers of the two
    fields and notify on every write, so along any sequence of [start]
    calls and handler calls the observers stay up to date: the last
    [status] and the last [error] notification carry the current status and
    error. *)
Theorem observers_stay_in_sync (actions : list Action) (s : Sys) :
  in_sync s -> in_sync (run JSON_parse actions s).
Proof.
  revert s. induction actions as [|a actions IH]; intros s S; [exact S|].
  cbn [run fold_left]. apply IH, perform_keeps_sync, S.
Qed.

(** X11: along any sequence of [start] calls and handler calls no worker
    channel is ever sent a second message. *)
Theorem channels_are_single_use (actions : list Action) (s : Sys) :
  single_use s -> single_use (run JSON_parse actions s).
Proof.
  revert s. induction actions as [|a actions IH]; intros s S; [exact S|].
  cbn [run fold_left]. apply IH, perform_keeps_single_use, S.
Qed.

End RunFacts.

Lemma observers_stay_in_sync_witness :
  in_sync
    (run Worker.JSON_parse
       [Start (VNum 30); OnError 0 (VNum 30) (VStr "boom"); Start (VNum 31);
        Start (VNum 32); OnMessage 1 1 (VNum 31) (VStr "7")]
       (snd (newTask (VFunc 0 increment_src) (boot 1)))).
Proof.
  apply observers_stay_in_sync. split; reflexivity.
Defined.

Lemma channels_are_single_use_witness :
  single_use
    (run Worker.JSON_parse
       [Start (VNum 30); OnError 0 (VNum 30) (VStr "boom"); Start (VNum 31);
        Start (VNum 32); OnMessage 1 1 (VNum 31) (VStr "7")]
       (snd (newTask (VFunc 0 increment_src) (boot 1)))).
Proof.
  apply channels_are_single_use. constructor.
Defined.

(** X3: when the function of a startable task has such a source text,
    [start] returns a promise already rejected with the [TypeError] of the
    failed match and the state of the call, the task is [Faulted], and the
    worker created for the call stays behind, alive, with its handlers set
    and no message posted. *)
Theorem start_faults_on_unreadable_source
    (s : Sys) (state : Value) (r : nat) (src : string) :
  may_start (status s) = true ->
  worker_fault s = None ->
  func s = VFunc r src ->
  MiniJs.contains "function" src = false \/ ends_with_char "}" src = false ->
  let p := length (promises s) in
  let e := VError (S (next_ref s)) "TypeError" null_index_message in
  fst (start state s) = Return p /\
  promise_state p (snd (start state s)) = Rejected (ResultError e state) /\
  status (snd (start state s)) = Some Faulted /\
  channels (snd (start state s))
  = channels s ++ [{| alive := true; handlers := Some (p, state); posted := [] |}].
Proof.
  intros G W F U p e.
  assert (B : Decomposer.extract_body (Json.to_string (func s)) = None).
  { rewrite F. change (Json.to_string (VFunc r src)) with src.
    destruct U as [U | U];
      [apply match_none_without_keyword | apply match_none_without_brace];
      exact U. }
  assert (T : truthy (func s) = true) by (now rewrite F).
  destruct (start_faults s state G (or_intror (conj T B)))
    as (R & P & M & C & _).
  rewrite W in *. split; [exact R|]. split; [|split].
  - unfold promise_state. rewrite P. subst p. rewrite nth_last. reflexivity.
  - unfold status. rewrite M. reflexivity.
  - exact C.
Qed.

Lemma start_faults_on_unreadable_source_witness :
  let s := snd (newTask (VFunc 0 "(ctx) => { return ctx.state; }") (boot 1)) in
  fst (start (VNum 30) s) = Return 0 /\
  promise_state 0 (snd (start (VNum 30) s))
  = Rejected (ResultError (VError 2 "TypeError" null_index_message) (VNum 30)) /\
  status (snd (start (VNum 30) s)) = Some Faulted /\
  channels (snd (start (VNum 30) s))
  = [{| alive := true; handlers := Some (0, VNum 30); posted := [] |}].
Proof.
  exact (start_faults_on_unreadable_source
           (snd (newTask (VFunc 0 "(ctx) => { return ctx.state; }") (boot 1)))
           (VNum 30) 0 "(ctx) => { return ctx.state; }"
           eq_refl eq_refl eq_refl (or_introl eq_refl)).
Defined.

(** X6: on a truthy payload that [JSON.parse] accepts, the message
    handler of the compiled [index.js] and the one of [index.ts] return the
    same and leave the same state. *)
Theorem compiled_handler_agrees_on_parsed_payload
    (JSON_parse : Value -> nat -> Outcome Value * nat)
    (s : Sys) (w p : nat) (state data v : Value) (n : nat) :
  JSON_parse data (next_ref s) = (Return v, n) ->
  truthy data = true ->
  worker_onmessage_js JSON_parse w p state data s
  = worker_onmessage JSON_parse w p state data s.
Proof.
  destruct s as [[f e st] nr wf ch pr nt]. cbn [next_ref]. intros P T.
  run. cbn. rewrite T.
  destruct st as [[]|]; cbn; rewrite ?P; cbn; reflexivity.
Qed.

Lemma compiled_handler_agrees_on_parsed_payload_witness :
  worker_onmessage_js Worker.JSON_parse 0 0 (VNum 1) (VStr "7") pending_task
  = worker_onmessage Worker.JSON_parse 0 0 (VNum 1) (VStr "7") pending_task.
Proof.
  exact (compiled_handler_agrees_on_parsed_payload Worker.JSON_parse
           pending_task 0 0 (VNum 1) (VStr "7") (VNum 7) 1 eq_refl eq_refl).
Defined.

(** X7: when [JSON.parse] throws on the payload of a message response,
    the handler of [index.ts] throws that error after terminating the
    channel and before touching the task: the status stays [Running] and
    the promises stay as they are, so every later [start] is refused by the
    guard, with a rejected promise and no new channel. *)
Theorem unparsable_payload_blocks_the_task
    (JSON_parse : Value -> nat -> Outcome Value * nat)
    (s : Sys) (w p : nat) (state data e : Value) :
  status s = Some Running ->
  truthy data = true ->
  fst (JSON_parse data (next_ref s)) = Throw e ->
  let s1 := snd (worker_onmessage JSON_parse w p state data s) in
  fst (worker_onmessage JSON_parse w p state data s) = Throw e /\
  status s1 = Some Running /\
  promises s1 = promises s /\
  channel_alive w s1 = false /\
  forall state',
    promise_state (length (promises s1)) (snd (start state' s1))
    = Rejected (ResultError
        (VError (next_ref s1) "Error" "Cannot start while in 'Running' state!")
        state') /\
    status (snd (start state' s1)) = Some Running /\
    channels (snd (start state' s1)) = channels s1.
Proof.
  intros R T P s1.
  assert (PR : payload_result JSON_parse data (next_ref s) = Throw e).
  { unfold payload_result. now rewrite T. }
  destruct (onmessage_throws JSON_parse s w p state data e PR)
    as (Q & M & Pr & C & _).
  fold s1 in M, Pr, C.
  assert (S1 : status s1 = Some Running) by (unfold status; now rewrite M).
  split; [exact Q|]. split; [exact S1|]. split; [exact Pr|].
  split; [exact (Claims.channel_alive_terminated w s s1 C)|].
  intro state'.
  assert (G : may_start (status s1) = false) by (now rewrite S1).
  destruct (start_conflict s1 state' G) as (_ & P' & M' & C' & _).
  split; [|split].
  - unfold promise_state. rewrite P', nth_last, S1. reflexivity.
  - unfold status at 1. rewrite M'. exact S1.
  - exact C'.
Qed.

Lemma unparsable_payload_blocks_the_task_witness :
  let s1 :=
    snd (worker_onmessage Worker.JSON_parse 0 0 (VNum 1) (VStr "{") pending_task) in
  fst (worker_onmessage Worker.JSON_parse 0 0 (VNum 1) (VStr "{") pending_task)
  = Throw (VError 1 "SyntaxError" "Unexpected token in JSON") /\
  status s1 = Some Running /\
  promises s1 = promises pending_task /\
  channel_alive 0 s1 = false /\
  forall state',
    promise_state (length (promises s1)) (snd (start state' s1))
    = Rejected (ResultError
        (VError (next_ref s1) "Error" "Cannot start while in 'Running' state!")
        state') /\
    status (snd (start state' s1)) = Some Running /\
    channels (snd (start state' s1)) = channels s1.
Proof.
  exact (unparsable_payload_blocks_the_task Worker.JSON_parse pending_task 0 0
           (VNum 1) (VStr "{") (VError 1 "SyntaxError" "Unexpected token in JSON")
           eq_refl eq_refl eq_refl).
Defined.

(** X8: [completed] tests the error for truthiness, so an error response
    carrying a falsy value ([0], the empty string, [null], ...) resolves
    the pending promise of the call with [{data: undefined, state}] although
    the task becomes [Faulted]. *)
Theorem falsy_error_resolves (s : Sys) (p : nat) (state err : Value) :
  nth_error (promises s) p = Some Pending ->
  truthy err = false ->
  promise_state p (snd (worker_onerror p state err s))
  = Resolved (ResultData VUndefined state) /\
  status (snd (worker_onerror p state err s)) = Some Faulted.
Proof.
  intros P T. destruct (onerror_effect s p state err) as (_ & M & Pr & _).
  unfold promise_state, status. rewrite M, Pr. split; [|reflexivity].
  unfold verdict. rewrite T. apply Claims.nth_update_nth_pending, P.
Qed.

Lemma falsy_error_resolves_witness :
  promise_state 0 (snd (worker_onerror 0 (VNum 1) (VNum 0) pending_task))
  = Resolved (ResultData VUndefined (VNum 1)) /\
  status (snd (worker_onerror 0 (VNum 1) (VNum 0) pending_task)) = Some Faulted.
Proof.
  exact (falsy_error_resolves pending_task 0 (VNum 1) (VNum 0) eq_refl eq_refl).
Defined.

Lemma nth_error_last {A} (l : list A) (x : A) :
  nth_error (l ++ [x]) (length l) = Some x.
Proof. induction l as [|a l IH]; [reflexivity | exact IH]. Qed.

(** X9: a [start] that passes the guard and posts its message returns a
    pending promise and leaves the task [Running] with a new live channel;
    the response of that channel settles this very promise with the state
    given to [start]: a message resolves it with the payload result, ends in
    [RanToCompletion] with the error [null] and the channel terminated; an
    error settles it by the error, ends in [Faulted] and leaves the channel
    alive.  After either response the task may be started again. *)
Theorem response_settles_the_promise_of_its_call
    (JSON_parse : Value -> nat -> Outcome Value * nat) (s : Sys) (state : Value) :
  may_start (status s) = true ->
  worker_fault s = None ->
  truthy (func s) = false \/
    Decomposer.extract_body (Json.to_string (func s)) <> None ->
  let p := length (promises s) in
  let w := length (channels s) in
  let s1 := snd (start state s) in
  fst (start state s) = Return p /\
  promise_state p s1 = Pending /\
  status s1 = Some Running /\
  channel_alive w s1 = true /\
  (forall data v,
     payload_result JSON_parse data (next_ref s1) = Return v ->
     let s2 := snd (deliver JSON_parse w (Success data) s1) in
     promise_state p s2 = Resolved (ResultData v state) /\
     status s2 = Some RanToCompletion /\
     error s2 = VNull /\
     channel_alive w s2 = false /\
     may_start (status s2) = true) /\
  (forall err,
     let s2 := snd (deliver JSON_parse w (Failure err) s1) in
     promise_state p s2 = verdict err VUndefined state /\
     status s2 = Some Faulted /\
     channel_alive w s2 = true /\
     may_start (status s2) = true).
Proof.
  intros G W C p w s1.
  destruct (start_dispatches s state G W C) as (R & P & M & Ch & _).
  fold s1 in P, M, Ch. fold p in P, Ch.
  assert (L : nth_error (channels s1) w
              = Some {| alive := true; handlers := Some (p, state);
                        posted := [Json.JSON_stringify
                          (VObj (message_ref s)
                             [("func", func_descriptor s); ("state", state)])] |}).
  { rewrite Ch. apply nth_error_last. }
  assert (Pp : nth_error (promises s1) p = Some Pending).
  { rewrite P. apply nth_error_last. }
  split; [exact R|]. split; [|split; [|split; [|split]]].
  - unfold promise_state. rewrite P. apply nth_last.
  - unfold status. now rewrite M.
  - unfold channel_alive. now rewrite L.
  - intros data v PR s2.
    assert (D : deliver JSON_parse w (Success data) s1
                = worker_onmessage JSON_parse w p state data s1).
    { unfold deliver, bind, gets. cbn. rewrite L. reflexivity. }
    subst s2. rewrite D.
    destruct (onmessage_effect JSON_parse s1 w p state data v PR)
      as (_ & M2 & P2 & C2 & _).
    unfold promise_state, status, error. rewrite M2, P2. cbn.
    split; [apply Claims.nth_update_nth_pending, Pp|].
    split; [reflexivity|]. split; [apply Claims.stored_null|].
    split; [|reflexivity].
    exact (Claims.channel_alive_terminated w s1 _ C2).
  - intros err s2.
    assert (D : deliver JSON_parse w (Failure err) s1
                = worker_onerror p state err s1).
    { unfold deliver, bind, gets. cbn. rewrite L. reflexivity. }
    subst s2. rewrite D.
    destruct (onerror_effect s1 p state err) as (_ & M2 & P2 & C2 & _).
    unfold promise_state, status, channel_alive. rewrite M2, P2, C2, L. cbn.
    split; [apply Claims.nth_update_nth_pending, Pp|].
    repeat split.
Qed.

Lemma response_settles_the_promise_of_its_call_witness :
  let s := snd (newTask VNull (boot 0)) in
  let s1 := snd (start (VNum 30) s) in
  promise_state 0 (snd (deliver Worker.JSON_parse 0 (Failure (VStr "boom")) s1))
  = verdict (VStr "boom") VUndefined (VNum 30) /\
  status (snd (deliver Worker.JSON_parse 0 (Failure (VStr "boom")) s1))
  = Some Faulted /\
  channel_alive 0 (snd (deliver Worker.JSON_parse 0 (Failure (VStr "boom")) s1))
  = true /\
  may_start (status (snd (deliver Worker.JSON_parse 0 (Failure (VStr "boom")) s1)))
  = true.
Proof.
  exact (proj2 (proj2 (proj2 (proj2 (proj2
           (response_settles_the_promise_of_its_call Worker.JSON_parse
              (snd (newTask VNull (boot 0))) (VNum 30)
              eq_refl eq_refl (or_introl eq_refl))))))
           (VStr "boom")).
Defined.

(** X12: [startNew] with a value that is present and not invocable throws
    the construction error itself, before any promise exists; with an
    absent or invocable value it returns the one promise it creates. *)
Theorem startNew_throws_before_any_promise (f state : Value) (s : Sys) :
  (~ absent f -> ~ invocable f ->
   startNew f state s
   = (Throw (VStr "'func' must be a function!"), set_me blank s)) /\
  (absent f \/ invocable f ->
   fst (startNew f state s) = Return (length (promises s)) /\
   length (promises (snd (startNew f state s))) = S (length (promises s))).
Proof.
  assert (N : startNew f state s
              = match newTask f s with
                | (Return _, s') => start state s'
                | (Throw e, s') => (Throw e, s')
                end).
  { unfold startNew, bind. destruct (newTask f s) as [[[]|e] s']; reflexivity. }
  split.
  - intros A I. rewrite N.
    assert (A' : isNullOrUndefined f = false).
    { destruct (isNullOrUndefined f) eqn:E; [|reflexivity].
      exfalso. apply A, Claims.absent_iff, E. }
    assert (I' : String.eqb (typeof f) "function" = false).
    { destruct (String.eqb (typeof f) "function") eqn:E; [|reflexivity].
      exfalso. apply I, Claims.invocable_iff, E. }
    change (newTask f s) with (constructor f (set_me blank s)).
    now rewrite (Claims.constructor_throws f (set_me blank s) A' I').
  - intro H. rewrite N.
    assert (R : isNullOrUndefined f = true \/
                String.eqb (typeof f) "function" = true).
    { destruct H as [A | I];
        [left; apply Claims.absent_iff, A | right; apply Claims.invocable_iff, I]. }
    change (newTask f s) with (constructor f (set_me blank s)).
    destruct (Claims.constructor_returns f (set_me blank s) R)
      as (Q & _ & _ & P & _).
    destruct (constructor f (set_me blank s)) as [[[]|e] s'] eqn:E;
      cbn in Q; [|discriminate Q]. cbn [snd] in P. cbn [promises set_me] in P.
    destruct (start_cases s' state) as [G | [[G C] | [G [W C]]]].
    + destruct (start_conflict s' state G) as (R1 & P1 & _).
      rewrite R1, P1, P, length_app. cbn. split; [reflexivity | lia].
    + destruct (start_faults s' state G C) as (R1 & P1 & _).
      rewrite R1, P1, P, length_app. cbn. split; [reflexivity | lia].
    + destruct (start_dispatches s' state G W C) as (R1 & P1 & _).
      rewrite R1, P1, P, length_app. cbn. split; [reflexivity | lia].
Qed.

Lemma startNew_throws_before_any_promise_witness :
  startNew (VStr "return 1;") (VNum 30) (boot 0)
  = (Throw (VStr "'func' must be a function!"), set_me blank (boot 0)).
Proof.
  refine (proj1 (startNew_throws_before_any_promise (VStr "return 1;") (VNum 30)
                   (boot 0)) _ _).
  - intros [H | H]; discriminate H.
  - intro H. discriminate H.
Defined.

(** X13: a [start] refused while the task is [Running] does not disturb
    the call in flight: its promise stays pending and is resolved by the
    message response as usual, the refused call's promise stays rejected,
    and the task ends in [RanToCompletion] with the state-conflict error
    cleared to [null]. *)
Theorem refused_start_spares_the_pending_call
    (JSON_parse : Value -> nat -> Outcome Value * nat)
    (s : Sys) (w p : nat) (state state2 data v : Value) :
  status s = Some Running ->
  nth_error (promises s) p = Some Pending ->
  let s1 := snd (start state2 s) in
  payload_result JSON_parse data (next_ref s1) = Return v ->
  let s2 := snd (worker_onmessage JSON_parse w p state data s1) in
  promise_state p s1 = Pending /\
  promise_state p s2 = Resolved (ResultData v state) /\
  promise_state (length (promises s)) s2
  = Rejected (ResultError
      (VError (next_ref s) "Error" "Cannot start while in 'Running' state!")
      state2) /\
  status s2 = Some RanToCompletion /\
  error s2 = VNull.
Proof.
  intros R P s1 PR s2.
  assert (G : may_start (status s) = false) by (now rewrite R).
  destruct (start_conflict s state2 G) as (_ & P1 & _).
  fold s1 in P1. rewrite R in P1.
  assert (Lt : p < length (promises s)).
  { apply nth_error_Some. rewrite P. discriminate. }
  assert (P1p : nth_error (promises s1) p = Some Pending).
  { rewrite P1, nth_error_app1 by exact Lt. exact P. }
  destruct (onmessage_effect JSON_parse s1 w p state data v PR)
    as (_ & M2 & P2 & _).
  fold s2 in M2, P2.
  split; [|split; [|split; [|split]]].
  - unfold promise_state. now rewrite (nth_error_nth _ _ _ P1p).
  - unfold promise_state. rewrite P2.
    apply Claims.nth_update_nth_pending, P1p.
  - unfold promise_state. rewrite P2, P1.
    assert (U : forall (l : list Settlement) x f,
                update_nth p f (l ++ [x]) = update_nth p f l ++ [x] \/
                length l <= p).
    { clear. intros l x f. revert p. induction l as [|a l IH]; intro p.
      - right. cbn. lia.
      - destruct p as [|p]; [left; reflexivity|].
        destruct (IH p) as [E | E]; [left; cbn; now rewrite E | right; cbn; lia]. }
    destruct (U (promises s)
                (Rejected (ResultError
                   (VError (next_ref s) "Error" (conflict_message (Some Running)))
                   state2))
                (settled (Resolved (ResultData v state)))) as [E | E]; [|lia].
    rewrite E.
    assert (Len : length (update_nth p (settled (Resolved (ResultData v state)))
                            (promises s)) = length (promises s)).
    { clear. generalize (promises s). intro l. revert p.
      induction l as [|a l IH]; intros [|p]; cbn; auto. }
    rewrite <- Len at 1. rewrite nth_last. reflexivity.
  - unfold status. rewrite M2. reflexivity.
  - unfold error. rewrite M2. cbn. apply Claims.stored_null.
Qed.

Lemma refused_start_spares_the_pending_call_witness :
  let s1 := snd (start (VNum 2) pending_task) in
  let s2 := snd (worker_onmessage Worker.JSON_parse 0 0 (VNum 1) (VStr "7") s1) in
  promise_state 0 s1 = Pending /\
  promise_state 0 s2 = Resolved (ResultData (VNum 7) (VNum 1)) /\
  promise_state 1 s2
  = Rejected (ResultError
      (VError 1 "Error" "Cannot start while in 'Running' state!") (VNum 2)) /\
  status s2 = Some RanToCompletion /\
  error s2 = VNull.
Proof.
  exact (refused_start_spares_the_pending_call Worker.JSON_parse pending_task
           0 0 (VNum 1) (VNum 2) (VStr "7") (VNum 7) eq_refl eq_refl eq_refl).
Defined.

(** X14: [start] never throws, whatever the state of the task: it returns
    the promise it has just created, one per call, and leaves the promises
    of earlier calls as they are. *)
Theorem start_always_returns_a_promise (s : Sys) (state : Value) :
  fst (start state s) = Return (length (promises s)) /\
  exists outcome, promises (snd (start state s)) = promises s ++ [outcome].
Proof.
  destruct (start_cases s state) as [G | [[G C] | [G [W C]]]].
  - destruct (start_conflict s state G) as (R & P & _). eauto.
  - destruct (start_faults s state G C) as (R & P & _). eauto.
  - destruct (start_dispatches s state G W C) as (R & P & _). eauto.
Qed.

End Extras.
